(** * WiFi site-survey analysis: coverage bands, handover zones, efficiency
      score and cross-source match percentage.

    Shallow embedding of the analysis logic of
      - Scripts/analyze_wifi_data.py       ([analyze_floor])
      - Scripts/create_visualizations.py   ([create_handover_scatter])
      - Scripts/analyze_pi_survey.py       ([analyze_slu_network],
                                            [compare_with_acrylic_numbers])
      - Scripts/validate_pi_vs_acrylic.py  ([compare_floor])

    Modelling conventions.
      - A dataframe is the list of its rows, in file order; a column that
        may hold a missing value is an [option] (strings, coordinates) or a
        [pyfloat] (numbers, where the missing value is NaN).  The columns
        are typed: [ssid], [essid] and [bssid] are string columns (dtype
        object), so the [.str] accessor applies; the dtype inference of
        [read_csv] is part of file input and is not modelled.
      - Python and numpy floating-point numbers are exact rationals plus
        NaN ([pyfloat]); rounding is not modelled.
      - A Python exception is a value of the [result] monad.
      - Printing and plotting are left out; the values that are printed are
        kept as fields of the result records. *)

From Stdlib Require Import QArith Qcanon Qabs Lqa ZArith.
From stdpp Require Import base decidable option list sorting strings gmap.

(** ** Python numbers and exceptions *)

Inductive exn : Type := ZeroDivisionError.

Inductive result (A : Type) : Type :=
  | Ok (a : A)
  | Raise (e : exn).
Arguments Ok {A} a.
Arguments Raise {A} e.

Global Instance result_ret : MRet result := λ A a, Ok a.
Global Instance result_bind : MBind result := λ A B f c,
  match c with
  | Ok a => f a
  | Raise e => Raise e
  end.

(** A float: a rational, or NaN. *)
Inductive pyfloat : Type :=
  | Num (q : Q)
  | NaN.

(** [int -> float] conversion of a length or a count. *)
Definition of_nat (n : nat) : pyfloat := Num (inject_Z (Z.of_nat n)).
Definition of_Z (n : Z) : pyfloat := Num (inject_Z n).

(** [pd.notna]. *)
Definition notna (a : pyfloat) : bool :=
  match a with
  | Num _ => true
  | NaN => false
  end.

(** Comparisons: every comparison with NaN is false. *)
Definition flt (a b : pyfloat) : bool :=
  match a, b with
  | Num p, Num q => negb (Qle_bool q p)
  | _, _ => false
  end.
Definition fle (a b : pyfloat) : bool :=
  match a, b with
  | Num p, Num q => Qle_bool p q
  | _, _ => false
  end.
Definition fgt (a b : pyfloat) : bool := flt b a.

Definition fadd (a b : pyfloat) : pyfloat :=
  match a, b with
  | Num p, Num q => Num (p + q)
  | _, _ => NaN
  end.
Definition fsub (a b : pyfloat) : pyfloat :=
  match a, b with
  | Num p, Num q => Num (p - q)
  | _, _ => NaN
  end.
Definition fmul (a b : pyfloat) : pyfloat :=
  match a, b with
  | Num p, Num q => Num (p * q)
  | _, _ => NaN
  end.

(** [a / b]: a zero divisor raises (the divisors that can be zero in the
    scripts are Python ints); NaN propagates. *)
Definition truediv (a b : pyfloat) : result pyfloat :=
  match b with
  | Num q =>
      if Qeq_bool q 0 then Raise ZeroDivisionError
      else match a with
           | Num p => Ok (Num (p / q))
           | NaN => Ok NaN
           end
  | NaN => Ok NaN
  end.

(** The builtins [max(a, b)] and [min(a, b)]: the first argument is kept
    unless the second is strictly greater (resp. smaller). *)
Definition py_max (a b : pyfloat) : pyfloat := if fgt b a then b else a.
Definition py_min (a b : pyfloat) : pyfloat := if flt b a then b else a.

(** ** pandas Series *)

(** The non-missing values of a numeric Series. *)
Definition valid (s : list pyfloat) : list Q :=
  omap (λ v, match v with Num q => Some q | NaN => None end) s.

Definition Qsum (l : list Q) : Q := foldr Qplus 0%Q l.

(** [Series.mean()]: missing values are skipped; NaN when nothing is left. *)
Definition mean (s : list pyfloat) : pyfloat :=
  match valid s with
  | [] => NaN
  | vs => Num (Qsum vs / inject_Z (Z.of_nat (length vs)))
  end.

(** [Series.unique()]: the distinct values in order of first appearance
    (a missing value is one of the values). *)
Definition unique `{EqDecision A} (s : list A) : list A :=
  foldl (λ seen v, if decide (v ∈ seen) then seen else seen ++ [v]) [] s.

(** [Series.nunique()]: the number of distinct non-missing values. *)
Definition nunique `{EqDecision A} (s : list (option A)) : nat :=
  length (unique (omap id s)).

(** [Series.str.contains(pat, na=False, case=False)] for a pattern without
    regular-expression metacharacters: a case-insensitive substring test on
    ASCII strings; a missing value gives [False]. *)
Definition lower_ascii (c : Ascii.ascii) : Ascii.ascii :=
  let n := Ascii.nat_of_ascii c in
  if decide (65 ≤ n ≤ 90)%nat then Ascii.ascii_of_nat (n + 32) else c.

Fixpoint lower (s : string) : string :=
  match s with
  | EmptyString => EmptyString
  | String c s' => String (lower_ascii c) (lower s')
  end.

Fixpoint is_substring (pat s : string) : bool :=
  String.prefix pat s ||
  match s with
  | EmptyString => false
  | String _ s' => is_substring pat s'
  end.

Definition str_contains (pat : string) (v : option string) : bool :=
  match v with
  | Some s => is_substring (lower pat) (lower s)
  | None => false
  end.

(** ** Measurements *)

(** One row of [all_measurements.csv]. *)
Record Row : Type := {
  x_position : option Qc;
  y_position : option Qc;
  bssid : option string;
  ssid : option string;
  signal_strength : pyfloat
}.

Definition Loc : Type := Qc * Qc.

Definition location (r : Row) : option Loc :=
  x ← x_position r; y ← y_position r; Some (x, y).

(** Ascending order of the group keys [(x, y)]. *)
Definition loc_le (a b : Loc) : Prop :=
  (a.1 < b.1)%Qc ∨ (a.1 = b.1 ∧ (a.2 ≤ b.2)%Qc).

Global Instance loc_le_dec : RelDecision loc_le.
Proof. intros a b. unfold loc_le. apply _. Defined.

(** [df.groupby(['x_position', 'y_position'])] with the defaults
    [sort=True, dropna=True]: a row with a missing coordinate is in no
    group; the groups come in ascending key order; a group keeps its rows
    in frame order. *)
Definition groupby (rows : list Row) : list (Loc * list Row) :=
  (λ k, (k, filter (λ r, location r = Some k) rows))
    <$> merge_sort loc_le (remove_dups (omap location rows)).

(** ** The four coverage bands (same expressions in every script) *)

Definition is_excellent (s : pyfloat) : bool := fgt s (Num (-50)).
Definition is_good (s : pyfloat) : bool := fle s (Num (-50)) && fgt s (Num (-65)).
Definition is_fair (s : pyfloat) : bool := fle s (Num (-65)) && fgt s (Num (-80)).
Definition is_poor (s : pyfloat) : bool := fle s (Num (-80)).

(** [len(frame[mask])] for a mask computed from the signal column. *)
Definition count_signal {R : Type} (col : R → pyfloat) (p : pyfloat → bool)
    (rows : list R) : nat :=
  length (filter (λ r, p (col r)) rows).

(** [a / b * 100]. *)
Definition percent (a b : pyfloat) : result pyfloat :=
  q ← truediv a b; mret (fmul q (Num 100)).

(** ** Scripts/analyze_wifi_data.py *)
Module AnalyzeWifiData.

(** An element of [handover_zones]. *)
Record Zone : Type := {
  x : Qc;
  y : Qc;
  num_aps : nat;
  avg_signal : pyfloat
}.

Definition handover_threshold : pyfloat := Num (-70).

Definition strong_aps (group : list Row) : list Row :=
  filter (λ r, fgt (signal_strength r) handover_threshold) group.

(** The loop over [locations] that fills [handover_zones]. *)
Fixpoint handover_zones (locations : list (Loc * list Row)) : list Zone :=
  match locations with
  | [] => []
  | (k, group) :: rest =>
      let strong := strong_aps group in
      let n := length (unique (bssid <$> strong)) in
      if decide (2 ≤ n)%nat
      then {| x := k.1; y := k.2; num_aps := n;
              avg_signal := mean (signal_strength <$> strong) |}
             :: handover_zones rest
      else handover_zones rest
  end.

(** [min(100, max(0, (avg_handover_signal + 100) * 2))] of line 100. *)
Definition signal_quality (avg_handover_signal : pyfloat) : pyfloat :=
  py_min (Num 100) (py_max (Num 0)
    (fmul (fadd avg_handover_signal (Num 100)) (Num 2))).

(** The efficiency formula of lines 105-109. *)
Definition efficiency (handover_score signal_quality_score density_score : pyfloat)
    : pyfloat :=
  fadd (fadd (fmul handover_score (Num 0.4))
             (fmul signal_quality_score (Num 0.3)))
       (fmul density_score (Num 0.3)).

(** The values [analyze_floor] computes; the returned dict holds
    [total], [total_locations], [avg_signal_all], [handover_coverage],
    [handover_locations] and [efficiency_score], the others are printed. *)
Record Analysis : Type := {
  excellent : nat;
  good : nat;
  fair : nat;
  poor : nat;
  total : nat;
  pct_excellent : pyfloat;
  pct_good : pyfloat;
  pct_fair : pyfloat;
  pct_poor : pyfloat;
  avg_signal_all : pyfloat;
  handover_df : list Zone;
  total_locations : nat;
  handover_locations : nat;
  handover_coverage : pyfloat;
  coverage_score : pyfloat;
  handover_score : pyfloat;
  signal_quality_score : pyfloat;
  density_score : pyfloat;
  efficiency_score : pyfloat
}.

(** [df[df['ssid'].str.contains('SLU-users', na=False, case=False)]]. *)
Definition select_slu_users (df : list Row) : list Row :=
  filter (λ r, str_contains "SLU-users" (ssid r)) df.

(** The body of [analyze_floor] after the early return, on the frame
    [slu_users]. *)
Definition analyze_slu_users (slu_users : list Row) : result Analysis :=
  let excellent := count_signal signal_strength is_excellent slu_users in
  let good := count_signal signal_strength is_good slu_users in
  let fair := count_signal signal_strength is_fair slu_users in
  let poor := count_signal signal_strength is_poor slu_users in
  let total := length slu_users in
  pct_excellent ← percent (of_nat excellent) (of_nat total);
  pct_good ← percent (of_nat good) (of_nat total);
  pct_fair ← percent (of_nat fair) (of_nat total);
  pct_poor ← percent (of_nat poor) (of_nat total);
  let locations := groupby slu_users in
  let handover_df := handover_zones locations in
  let total_locations := length locations in
  let handover_locations := length handover_df in
  handover_coverage ←
    (if decide (0 < total_locations)%nat
     then percent (of_nat handover_locations) (of_nat total_locations)
     else mret (of_nat 0));
  coverage_score ←
    (if decide (0 < total)%nat
     then percent (of_nat (excellent + good)) (of_nat total)
     else mret (of_nat 0));
  let handover_score := handover_coverage in
  let avg_handover_signal :=
    if decide (0 < length handover_df)%nat
    then mean (avg_signal <$> handover_df) else Num (-100) in
  let signal_quality_score := signal_quality avg_handover_signal in
  let avg_aps_per_zone :=
    if decide (0 < length handover_df)%nat
    then mean (of_nat ∘ num_aps <$> handover_df) else of_nat 0 in
  q ← truediv avg_aps_per_zone (Num 20);
  let density_score := py_min (Num 100) (fmul q (Num 100)) in
  let efficiency_score :=
    efficiency handover_score signal_quality_score density_score in
  mret {| excellent := excellent; good := good; fair := fair; poor := poor;
          total := total;
          pct_excellent := pct_excellent; pct_good := pct_good;
          pct_fair := pct_fair; pct_poor := pct_poor;
          avg_signal_all := mean (signal_strength <$> slu_users);
          handover_df := handover_df;
          total_locations := total_locations;
          handover_locations := handover_locations;
          handover_coverage := handover_coverage;
          coverage_score := coverage_score;
          handover_score := handover_score;
          signal_quality_score := signal_quality_score;
          density_score := density_score;
          efficiency_score := efficiency_score |}.

(** [analyze_floor] on the frame read from [all_measurements.csv]:
    [None] is the early [return None] when no row is on the network. *)
Definition analyze_floor (df : list Row) : result (option Analysis) :=
  let slu_users := select_slu_users df in
  if decide (length slu_users = 0)%nat then mret None
  else r ← analyze_slu_users slu_users; mret (Some r).

End AnalyzeWifiData.

(** ** Scripts/create_visualizations.py *)
Module CreateVisualizations.

(** Elements of [handover_zones] and of [non_handover]. *)
Record Zone : Type := { x : Qc; y : Qc; signal : pyfloat; aps : nat }.
Record NonZone : Type := { nx : Qc; ny : Qc; nsignal : pyfloat }.

(** The loop of [create_handover_scatter] over the groups of one floor:
    the pair of lists [(handover_zones, non_handover)]. *)
Fixpoint scatter_loop (locations : list (Loc * list Row))
    : list Zone * list NonZone :=
  match locations with
  | [] => ([], [])
  | (k, group) :: rest =>
      let strong_aps :=
        filter (λ r, fgt (signal_strength r) (Num (-70))) group in
      let num_aps := length (unique (bssid <$> strong_aps)) in
      let avg_signal := mean (signal_strength <$> group) in
      let '(handover_zones, non_handover) := scatter_loop rest in
      if decide (2 ≤ num_aps)%nat
      then ({| x := k.1; y := k.2; signal := avg_signal; aps := num_aps |}
              :: handover_zones, non_handover)
      else (handover_zones,
            {| nx := k.1; ny := k.2; nsignal := avg_signal |} :: non_handover)
  end.

(** One floor of [create_handover_scatter]: [None] when the floor has no
    row on the network (nothing is drawn). *)
Definition handover_scatter (df : list Row)
    : option (list Zone * list NonZone) :=
  let slu := AnalyzeWifiData.select_slu_users df in
  if decide (0 < length slu)%nat then Some (scatter_loop (groupby slu))
  else None.

End CreateVisualizations.

(** ** The Raspberry Pi survey frames *)

(** One row of [<floor>_floor_parsed.csv]. *)
Record PiRow : Type := {
  essid : option string;
  pi_bssid : option string;
  signal_dbm : pyfloat
}.

(** [min(a, b) / max(a, b) * 100] on two Python ints, as written for
    [bssid_match] and [network_match] in both scripts. *)
Definition match_pct (a b : Z) : result pyfloat :=
  percent (py_min (of_Z a) (of_Z b)) (py_max (of_Z a) (of_Z b)).

(** ** Scripts/analyze_pi_survey.py *)
Module AnalyzePiSurvey.

Record Bands : Type := {
  excellent : nat; good : nat; fair : nat; poor : nat; total : nat;
  pct_excellent : pyfloat; pct_good : pyfloat;
  pct_fair : pyfloat; pct_poor : pyfloat
}.

(** [PiSurveyAnalyzer.analyze_slu_network]: the band counts computed
    under [if len(slu_users) > 0]. *)
Definition analyze_slu_network (data : list PiRow) : result (option Bands) :=
  let slu := filter (λ r, str_contains "SLU" (essid r)) data in
  let slu_users := filter (λ r, str_contains "users" (essid r)) slu in
  if decide (0 < length slu_users)%nat then
    let excellent := count_signal signal_dbm is_excellent slu_users in
    let good := count_signal signal_dbm is_good slu_users in
    let fair := count_signal signal_dbm is_fair slu_users in
    let poor := count_signal signal_dbm is_poor slu_users in
    let total := length slu_users in
    pct_excellent ← percent (of_nat excellent) (of_nat total);
    pct_good ← percent (of_nat good) (of_nat total);
    pct_fair ← percent (of_nat fair) (of_nat total);
    pct_poor ← percent (of_nat poor) (of_nat total);
    mret (Some {| excellent := excellent; good := good; fair := fair;
                  poor := poor; total := total;
                  pct_excellent := pct_excellent; pct_good := pct_good;
                  pct_fair := pct_fair; pct_poor := pct_poor |})
  else mret None.

(** [PiSurveyAnalyzer.compare_with_acrylic_numbers]: the pair
    [(bssid_match, network_match)]. *)
Definition compare_with_acrylic_numbers (data : list PiRow)
    (acrylic_aps acrylic_networks acrylic_bssids : Z)
    : result (pyfloat * pyfloat) :=
  let pi_bssids := Z.of_nat (nunique (pi_bssid <$> data)) in
  let pi_networks := Z.of_nat (nunique (essid <$> data)) in
  bssid_match ← match_pct pi_bssids acrylic_bssids;
  network_match ← match_pct pi_networks acrylic_networks;
  mret (bssid_match, network_match).

End AnalyzePiSurvey.

(** ** Scripts/validate_pi_vs_acrylic.py *)
Module ValidatePiVsAcrylic.

Record Acrylic : Type := {
  bssids : Z; networks : Z; aps : Z; avg_signal : Q
}.

Definition acrylic_numbers : gmap string Acrylic :=
  list_to_map
    [("ground", {| bssids := 422; networks := 30; aps := 86;
                   avg_signal := (-55.3)%Q |});
     ("top", {| bssids := 446; networks := 45; aps := 103;
                avg_signal := (-55.4)%Q |});
     ("basement", {| bssids := 243; networks := 17; aps := 54;
                     avg_signal := (-45.7)%Q |})].

Definition fabs (a : pyfloat) : pyfloat :=
  match a with
  | Num q => Num (Qabs q)
  | NaN => NaN
  end.

(** The dict returned by [compare_floor], and [network_match]. *)
Record Validation : Type := {
  pi_avg_signal : pyfloat;
  acrylic_avg_signal : pyfloat;
  signal_diff : pyfloat;
  pi_bssids : Z;
  acrylic_bssids : Z;
  bssid_match : pyfloat;
  network_match : pyfloat
}.

(** [ValidationAnalyzer.compare_floor] on the frame read for the floor:
    [None] when the floor has no Acrylic numbers. *)
Definition compare_floor (floor_name : string) (pi_data : list PiRow)
    : result (option Validation) :=
  let pi_slu := filter (λ r, str_contains "SLU-users" (essid r)) pi_data in
  match acrylic_numbers !! floor_name with
  | None => mret None
  | Some acr =>
      let pi_avg := mean (signal_dbm <$> pi_slu) in
      let acrylic_avg := Num (avg_signal acr) in
      let pi_bssids := Z.of_nat (nunique (pi_bssid <$> pi_data)) in
      let pi_networks := Z.of_nat (nunique (essid <$> pi_data)) in
      bssid_match ← match_pct pi_bssids (bssids acr);
      network_match ← match_pct pi_networks (networks acr);
      let mean_diff := fabs (fsub pi_avg acrylic_avg) in
      mret (Some {| pi_avg_signal := pi_avg;
                    acrylic_avg_signal := acrylic_avg;
                    signal_diff := mean_diff;
                    pi_bssids := pi_bssids;
                    acrylic_bssids := bssids acr;
                    bssid_match := bssid_match;
                    network_match := network_match |})
  end.

End ValidatePiVsAcrylic.

(** * Vocabulary of the properties *)

Module W := AnalyzeWifiData.
Module V := CreateVisualizations.

Section Vocabulary.
Local Open Scope Q_scope.

(** [v] is a number in the closed interval [[lo, hi]]. *)
Definition between (lo hi : Q) (v : pyfloat) : Prop :=
  match v with
  | Num q => lo <= q <= hi
  | NaN => False
  end.

(** The number of bands a signal value is counted in. *)
Definition bands_hit (s : pyfloat) : nat :=
  Nat.b2n (is_excellent s) + Nat.b2n (is_good s)
  + Nat.b2n (is_fair s) + Nat.b2n (is_poor s).

(** Two floats hold the same value. *)
Definition same_value (a b : pyfloat) : Prop :=
  match a, b with
  | Num p, Num q => p == q
  | NaN, NaN => True
  | _, _ => False
  end.

(** The zone record [analyze_floor] builds for the group [g] at [k]. *)
Definition zone_of (k : Loc) (g : list Row) : W.Zone :=
  {| W.x := k.1; W.y := k.2;
     W.num_aps := length (unique (bssid <$> W.strong_aps g));
     W.avg_signal := mean (signal_strength <$> W.strong_aps g) |}.

(** [a / b * 100] for counts with [b ≠ 0]. *)
Definition pct (a b : nat) : pyfloat :=
  Num (inject_Z (Z.of_nat a) / inject_Z (Z.of_nat b) * 100).

(** [v / q] for a constant [q ≠ 0]. *)
Definition fdiv (v : pyfloat) (q : Q) : pyfloat :=
  match v with
  | Num p => Num (p / q)
  | NaN => NaN
  end.

(** The record [analyze_slu_users] returns on a non-empty frame, with the
    divisions carried out. *)
Definition analysis_of (slu_users : list Row) : W.Analysis :=
  let excellent := count_signal signal_strength is_excellent slu_users in
  let good := count_signal signal_strength is_good slu_users in
  let total := length slu_users in
  let zones := W.handover_zones (groupby slu_users) in
  let total_locations := length (groupby slu_users) in
  let coverage :=
    if decide (0 < total_locations)%nat
    then pct (length zones) total_locations else of_nat 0 in
  let avg_handover_signal :=
    if decide (0 < length zones)%nat
    then mean (W.avg_signal <$> zones) else Num (-100) in
  let signal_quality_score := W.signal_quality avg_handover_signal in
  let avg_aps_per_zone :=
    if decide (0 < length zones)%nat
    then mean (of_nat ∘ W.num_aps <$> zones) else of_nat 0 in
  let density_score :=
    py_min (Num 100) (fmul (fdiv avg_aps_per_zone 20) (Num 100)) in
  {| W.excellent := excellent;
     W.good := good;
     W.fair := count_signal signal_strength is_fair slu_users;
     W.poor := count_signal signal_strength is_poor slu_users;
     W.total := total;
     W.pct_excellent := pct excellent total;
     W.pct_good := pct good total;
     W.pct_fair := pct (count_signal signal_strength is_fair slu_users) total;
     W.pct_poor := pct (count_signal signal_strength is_poor slu_users) total;
     W.avg_signal_all := mean (signal_strength <$> slu_users);
     W.handover_df := zones;
     W.total_locations := total_locations;
     W.handover_locations := length zones;
     W.handover_coverage := coverage;
     W.coverage_score := pct (excellent + good) total;
     W.handover_score := coverage;
     W.signal_quality_score := signal_quality_score;
     W.density_score := density_score;
     W.efficiency_score :=
       W.efficiency coverage signal_quality_score density_score |}.

(** The specification's qualifying set: the distinct [bssid] values of
    the measurements at location [k] whose signal exceeds -70 dBm. *)
Definition qualifying_aps (slu_users : list Row) (k : Loc)
    : gset (option string) :=
  list_to_set
    (bssid <$> filter (λ r, location r = Some k
                            ∧ fgt (signal_strength r) (Num (-70)))
                      slu_users).

(** The mean signal over all the measurements of [slu_users] at the
    location of coordinates [(x, y)]. *)
Definition location_mean (slu_users : list Row) (x y : Qc) : pyfloat :=
  mean (signal_strength <$> filter (λ r, location r = Some (x, y)) slu_users).

(** The mean signal over the measurements at [(x, y)] above -70 dBm. *)
Definition strong_mean (slu_users : list Row) (x y : Qc) : pyfloat :=
  mean (signal_strength <$>
          filter (λ r, fgt (signal_strength r) (Num (-70)))
                 (filter (λ r, location r = Some (x, y)) slu_users)).

(** Two records of one access point at one location, both at -60 dBm. *)
Definition repeated_scan (k : Loc) (b n : option string) : list Row :=
  let r := {| x_position := Some k.1; y_position := Some k.2;
              bssid := b; ssid := n; signal_strength := Num (-60) |} in
  [r; r].

(** A measurement on the network at [(x, y)]. *)
Definition at_xy (x y : Q) (b : string) (s : Q) : Row :=
  {| x_position := Some (Q2Qc x); y_position := Some (Q2Qc y);
     bssid := Some b; ssid := Some "SLU-users";
     signal_strength := Num s |}.

(** Three access points seen at (0, 0), one at (1, 0). *)
Definition survey_example : list Row :=
  [at_xy 0 0 "A" (-40); at_xy 0 0 "B" (-55); at_xy 0 0 "C" (-90);
   at_xy 1 0 "A" (-72)].

(** A measurement whose coordinates are missing. *)
Definition unlocated_example : list Row :=
  [{| x_position := None; y_position := None; bssid := Some "A";
      ssid := Some "SLU-users"; signal_strength := Num (-60) |}].

End Vocabulary.

(** * The rest of the scripts *)

(** The builtin [sum] on numbers: a left fold of [+] from the int 0. *)
Definition py_sum (l : list pyfloat) : pyfloat := foldl fadd (Num 0) l.

(** [sum] on ints. *)
Definition sum_nat (l : list nat) : nat := foldl Nat.add 0%nat l.

(** [np.mean] of a non-empty list: NaN as soon as one element is NaN. *)
Definition np_mean (l : list pyfloat) : pyfloat :=
  if forallb notna l
  then Num (Qsum (valid l) / inject_Z (Z.of_nat (length l)))
  else NaN.

(** ** Scripts/analyze_wifi_data.py: [main] *)
Module AnalyzeWifiDataMain.

(** [analyze_floor] on a floor directory; [None] is a directory without
    [all_measurements.csv], for which [analyze_floor] returns [None]. *)
Definition analyze_floor_dir (floor_dir : option (list Row))
    : result (option W.Analysis) :=
  match floor_dir with
  | None => mret None
  | Some df => W.analyze_floor df
  end.

(** The loop of [main] that fills [results]. *)
Fixpoint collect_results (floor_dirs : list (option (list Row)))
    : result (list W.Analysis) :=
  match floor_dirs with
  | [] => mret []
  | floor_dir :: rest =>
      r ← analyze_floor_dir floor_dir;
      results ← collect_results rest;
      mret (match r with Some a => a :: results | None => results end)
  end.

(** The building-wide summary printed under [if results:]. *)
Record Summary : Type := {
  floors_analyzed : nat;
  total_measurements : nat;
  avg_efficiency : pyfloat;
  avg_handover_coverage : pyfloat
}.

(** [main] on the floor directories of the data directory: [None] when
    [results] is empty and no summary is printed. *)
Definition main (floor_dirs : list (option (list Row)))
    : result (option Summary) :=
  results ← collect_results floor_dirs;
  match results with
  | [] => mret None
  | _ =>
      let total_measurements := sum_nat (W.total <$> results) in
      avg_efficiency ←
        truediv (py_sum (W.efficiency_score <$> results))
                (of_nat (length results));
      avg_handover_coverage ←
        truediv (py_sum (W.handover_coverage <$> results))
                (of_nat (length results));
      mret (Some {| floors_analyzed := length results;
                    total_measurements := total_measurements;
                    avg_efficiency := avg_efficiency;
                    avg_handover_coverage := avg_handover_coverage |})
  end.

End AnalyzeWifiDataMain.

(** ** Scripts/create_visualizations.py: the other charts *)
Module Charts.

(** [floors_data]: the frames of the floors, keyed by directory name, in
    insertion order. *)
Definition FloorsData : Type := list (string * list Row).

(** A row of [floor_stats] in [create_network_infrastructure] (the floor
    caption left out). *)
Record FloorStats : Type := {
  BSSIDs : nat;
  Networks : nat;
  Measurements : nat
}.

Definition floor_stats (floors_data : FloorsData) : list FloorStats :=
  (λ '(_, df), {| BSSIDs := nunique (bssid <$> df);
                  Networks := nunique (ssid <$> df);
                  Measurements := length df |}) <$> floors_data.

(** The three totals of the building-wide summary box. *)
Definition building_totals (floors_data : FloorsData) : nat * nat * nat :=
  let stats := floor_stats floors_data in
  (sum_nat (BSSIDs <$> stats), sum_nat (Networks <$> stats),
   sum_nat (Measurements <$> stats)).

(** One floor of [create_coverage_quality]: the four bar heights with their
    percentage captions; [None] when nothing is drawn. *)
Definition coverage_quality (df : list Row)
    : result (option (list (nat * pyfloat))) :=
  let slu := W.select_slu_users df in
  if decide (0 < length slu)%nat then
    let excellent := count_signal signal_strength is_excellent slu in
    let good := count_signal signal_strength is_good slu in
    let fair := count_signal signal_strength is_fair slu in
    let poor := count_signal signal_strength is_poor slu in
    let caption (val : nat) : result (nat * pyfloat) :=
      pct ← (if decide (0 < length slu)%nat
             then percent (of_nat val) (of_nat (length slu))
             else mret (of_nat 0));
      mret (val, pct) in
    b1 ← caption excellent;
    b2 ← caption good;
    b3 ← caption fair;
    b4 ← caption poor;
    mret (Some [b1; b2; b3; b4])
  else mret None.

(** [pd.concat(all_slu) if all_slu else pd.DataFrame()] of
    [create_summary_dashboard]: the rows on the network of all floors. *)
Definition combined_slu (floors_data : FloorsData) : list Row :=
  let all_slu :=
    filter (λ slu, (0 < length slu)%nat)
           ((λ '(_, df), W.select_slu_users df) <$> floors_data) in
  mjoin all_slu.

(** How the pie chart of [create_summary_dashboard] ends: nothing is drawn
    for an empty [combined_slu]; [ax2.pie(sizes, ...)] raises [ValueError]
    when the wedge sizes are all zero. *)
Inductive Pie : Type :=
  | NoPie
  | Drawn (sizes : list nat) (pcts : list pyfloat)
  | ValueError (sizes : list nat).

(** The pie chart of [create_summary_dashboard]: [sizes] and the
    percentages of the labels, then the call of [ax2.pie]. *)
Definition dashboard_pie (floors_data : FloorsData) : result Pie :=
  let combined := combined_slu floors_data in
  if decide (0 < length combined)%nat then
    let excellent := count_signal signal_strength is_excellent combined in
    let good := count_signal signal_strength is_good combined in
    let fair := count_signal signal_strength is_fair combined in
    let poor := count_signal signal_strength is_poor combined in
    let sizes := [excellent; good; fair; poor] in
    p1 ← percent (of_nat excellent) (of_nat (length combined));
    p2 ← percent (of_nat good) (of_nat (length combined));
    p3 ← percent (of_nat fair) (of_nat (length combined));
    p4 ← percent (of_nat poor) (of_nat (length combined));
    if decide (sum_nat sizes = 0)%nat then mret (ValueError sizes)
    else mret (Drawn sizes [p1; p2; p3; p4])
  else mret NoPie.

(** An element of [floor_analysis] in [create_building_comparison] (the
    floor caption left out). *)
Record FloorAnalysis : Type := {
  avg_signal : pyfloat;
  locations : nat;
  handover_coverage : pyfloat;
  slu_bssids : nat
}.

(** The loop that counts the handover zones of a floor. *)
Definition handover_count (locations : list (Loc * list Row)) : nat :=
  foldl (λ count '(_, group),
           let strong_aps :=
             filter (λ r, fgt (signal_strength r) (Num (-70))) group in
           if decide (2 ≤ length (unique (bssid <$> strong_aps)))%nat
           then (count + 1)%nat else count)
        0%nat locations.

(** One floor of [create_building_comparison]; [None] for a floor without
    rows on the network. *)
Definition building_comparison (df : list Row)
    : result (option FloorAnalysis) :=
  let slu := W.select_slu_users df in
  if decide (0 < length slu)%nat then
    let locations := groupby slu in
    let handover_count := handover_count locations in
    handover_coverage ←
      (if decide (0 < length locations)%nat
       then percent (of_nat handover_count) (of_nat (length locations))
       else mret (of_nat 0));
    mret (Some {| avg_signal := mean (signal_strength <$> slu);
                  locations := length locations;
                  handover_coverage := handover_coverage;
                  slu_bssids := nunique (bssid <$> slu) |})
  else mret None.

End Charts.

(** ** Scripts/analyze_pi_survey.py: the frame of [analyze_slu_network] *)
Module PiSelection.

(** The frame [slu_users] that [analyze_slu_network] analyses and
    returns: the rows whose ESSID contains "SLU", then those of them whose
    ESSID contains "users". *)
Definition slu_users (data : list PiRow) : list PiRow :=
  let slu := filter (λ r, str_contains "SLU" (essid r)) data in
  filter (λ r, str_contains "users" (essid r)) slu.

(** The frame [pi_slu] of [compare_floor] and of the validation dashboard:
    the rows whose ESSID contains "SLU-users". *)
Definition pi_slu (pi_data : list PiRow) : list PiRow :=
  filter (λ r, str_contains "SLU-users" (essid r)) pi_data.

End PiSelection.

(** ** The three surveyed floors *)

(** The floors both validation scripts loop over, in this order. *)
Inductive Floor : Type := Ground | Top | Basement.

Definition floors : list Floor := [Ground; Top; Basement].

Definition floor_key (f : Floor) : string :=
  match f with
  | Ground => "ground"
  | Top => "top"
  | Basement => "basement"
  end.

(** The directory of parsed Pi surveys: the frame of
    [<floor>_floor_parsed.csv], or [None] when the file does not exist. *)
Definition PiDir : Type := Floor → option (list PiRow).

(** ** Scripts/validate_pi_vs_acrylic.py: verdicts and [validate_all_floors] *)
Module ValidateAllFloors.

Inductive SignalVerdict : Type :=
  | SignalExcellent
  | SignalGood
  | SignalAcceptable.

Inductive Verdict : Type :=
  | Successful
  | Good
  | Partial.

(** The message chosen at lines 84-89 of [compare_floor]. *)
Definition signal_verdict (mean_diff : pyfloat) : SignalVerdict :=
  if flt mean_diff (Num 2) then SignalExcellent
  else if flt mean_diff (Num 5) then SignalGood
  else SignalAcceptable.

(** The message chosen at lines 92-97 of [compare_floor]. *)
Definition verdict (mean_diff bssid_match : pyfloat) : Verdict :=
  if flt mean_diff (Num 3) && fgt bssid_match (Num 90) then Successful
  else if flt mean_diff (Num 5) && fgt bssid_match (Num 80) then Good
  else Partial.

(** [compare_floor] from the file system: [None] when the Pi file of the
    floor does not exist. *)
Definition compare_floor_file (pi_dir : PiDir) (f : Floor)
    : result (option ValidatePiVsAcrylic.Validation) :=
  match pi_dir f with
  | None => mret None
  | Some pi_data => ValidatePiVsAcrylic.compare_floor (floor_key f) pi_data
  end.

(** The loop of [validate_all_floors] that fills the dict [results]. *)
Fixpoint collect (pi_dir : PiDir) (fs : list Floor)
    : result (list (Floor * ValidatePiVsAcrylic.Validation)) :=
  match fs with
  | [] => mret []
  | f :: rest =>
      r ← compare_floor_file pi_dir f;
      results ← collect pi_dir rest;
      mret (match r with Some v => (f, v) :: results | None => results end)
  end.

(** The overall summary printed under [if results:]. *)
Record Overall : Type := {
  avg_signal_diff : pyfloat;
  avg_bssid_match : pyfloat;
  excellent : bool
}.

(** [validate_all_floors]: the dict [results] and the overall summary,
    [None] when [results] is empty. *)
Definition validate_all_floors (pi_dir : PiDir)
    : result (list (Floor * ValidatePiVsAcrylic.Validation) * option Overall) :=
  results ← collect pi_dir floors;
  match results with
  | [] => mret (results, None)
  | _ =>
      let avg_signal_diff :=
        np_mean (ValidatePiVsAcrylic.signal_diff ∘ snd <$> results) in
      let avg_bssid_match :=
        np_mean (ValidatePiVsAcrylic.bssid_match ∘ snd <$> results) in
      mret (results,
            Some {| avg_signal_diff := avg_signal_diff;
                    avg_bssid_match := avg_bssid_match;
                    excellent := flt avg_signal_diff (Num 3)
                                 && fgt avg_bssid_match (Num 90) |})
  end.

End ValidateAllFloors.

(** ** Scripts/visualize_validation.py: [create_validation_dashboard] *)
Module ValidationDashboard.

Definition acrylic_signals (f : Floor) : Q :=
  match f with
  | Ground => (-55.3)%Q
  | Top => (-55.4)%Q
  | Basement => (-45.7)%Q
  end.

Definition acrylic_totals (f : Floor) : Z :=
  match f with
  | Ground => 422
  | Top => 446
  | Basement => 243
  end.

(** The element appended to [signal_diffs] for a floor. *)
Definition signal_diff (pi_dir : PiDir) (f : Floor) : pyfloat :=
  match pi_dir f with
  | Some pi_df =>
      let pi_slu := PiSelection.pi_slu pi_df in
      if decide (0 < length pi_slu)%nat then
        let pi_avg := mean (signal_dbm <$> pi_slu) in
        let acrylic_avg := Num (acrylic_signals f) in
        ValidatePiVsAcrylic.fabs (fsub pi_avg acrylic_avg)
      else of_nat 0
  | None => of_nat 0
  end.

(** The element appended to [match_percentages] for a floor. *)
Definition match_percentage (pi_dir : PiDir) (f : Floor) : result pyfloat :=
  match pi_dir f with
  | Some pi_df =>
      let pi_bssids := Z.of_nat (nunique (pi_bssid <$> pi_df)) in
      match_pct pi_bssids (acrylic_totals f)
  | None => mret (of_nat 0)
  end.

Fixpoint match_percentages (pi_dir : PiDir) (fs : list Floor)
    : result (list pyfloat) :=
  match fs with
  | [] => mret []
  | f :: rest =>
      m ← match_percentage pi_dir f;
      ms ← match_percentages pi_dir rest;
      mret (m :: ms)
  end.

(** The numbers the dashboard shows; [result_excellent] tells which of the
    two RESULT lines is printed. *)
Record Dashboard : Type := {
  signal_diffs : list pyfloat;
  signal_green : list bool;
  detection : list pyfloat;
  detection_green : list bool;
  avg_signal_diff : pyfloat;
  avg_detection : pyfloat;
  result_excellent : bool
}.

Definition create_validation_dashboard (pi_dir : PiDir) : result Dashboard :=
  let diffs := signal_diff pi_dir <$> floors in
  ms ← match_percentages pi_dir floors;
  let avg_signal_diff :=
    match diffs with [] => of_nat 0 | _ => np_mean diffs end in
  let avg_detection :=
    match ms with [] => of_nat 0 | _ => np_mean ms end in
  mret {| signal_diffs := diffs;
          signal_green := (λ d, flt d (Num 2)) <$> diffs;
          detection := ms;
          detection_green := (λ m, fgt m (Num 95)) <$> ms;
          avg_signal_diff := avg_signal_diff;
          avg_detection := avg_detection;
          result_excellent := flt avg_signal_diff (Num 2)
                              && fgt avg_detection (Num 95) |}.

End ValidationDashboard.

(** ** Python strings *)

(** Text is ASCII in this development. *)
Definition comma : Ascii.ascii := Eval cbv in Ascii.ascii_of_nat 44.
Definition underscore : Ascii.ascii := Eval cbv in Ascii.ascii_of_nat 95.
Definition hyphen : Ascii.ascii := Eval cbv in Ascii.ascii_of_nat 45.
Definition space : Ascii.ascii := Eval cbv in Ascii.ascii_of_nat 32.

(** [str.isspace] on ASCII. *)
Definition is_space (c : Ascii.ascii) : bool :=
  let n := Ascii.nat_of_ascii c in
  bool_decide (9 ≤ n ≤ 13)%nat || bool_decide (28 ≤ n ≤ 32)%nat.

Fixpoint lstrip (s : string) : string :=
  match s with
  | EmptyString => EmptyString
  | String c s' => if is_space c then lstrip s' else s
  end.

Fixpoint rstrip (s : string) : string :=
  match s with
  | EmptyString => EmptyString
  | String c s' =>
      match rstrip s' with
      | EmptyString => if is_space c then EmptyString else String c EmptyString
      | r => String c r
      end
  end.

(** [s.strip()]. *)
Definition strip (s : string) : string := rstrip (lstrip s).

(** [s.split(sep)] for a one-character separator: never an empty list. *)
Fixpoint split_on (sep : Ascii.ascii) (s : string) : list string :=
  match s with
  | EmptyString => [EmptyString]
  | String c s' =>
      if decide (c = sep) then EmptyString :: split_on sep s'
      else match split_on sep s' with
           | field :: fields => String c field :: fields
           | [] => [String c EmptyString]
           end
  end.

(** [sep.join(fields)]. *)
Fixpoint join_with (sep : Ascii.ascii) (fields : list string) : string :=
  match fields with
  | [] => EmptyString
  | [field] => field
  | field :: rest => field +:+ String sep (join_with sep rest)
  end.

(** [s.startswith(prefix)]. *)
Definition startswith (prefix s : string) : bool := String.prefix prefix s.

(** [s.replace(old, '')] for a non-empty [old]: the occurrences of [old]
    are removed from left to right, without overlap; [skip] counts the
    characters of the current occurrence still to drop. *)
Fixpoint remove_from (old s : string) (skip : nat) : string :=
  match s with
  | EmptyString => EmptyString
  | String c s' =>
      match skip with
      | S k => remove_from old s' k
      | O => if String.prefix old s
             then remove_from old s' (String.length old - 1)
             else String c (remove_from old s' 0)
      end
  end.

Definition str_remove (old s : string) : string := remove_from old s 0.

(** ** Scripts/parse_pi_data.py *)
Module ParsePiData.

Inductive error : Type := TypeError | IndexError.

Inductive outcome (A : Type) : Type :=
  | Returns (a : A)
  | Raises (e : error).
Arguments Returns {A} a.
Arguments Raises {A} e.

(** The arguments of [pd.DataFrame(data, columns=header)]; the empty frame
    [pd.DataFrame()] has no column and no row. *)
Record Table : Type := {
  columns : list string;
  rows : list (list string)
}.

Definition empty_table : Table := {| columns := []; rows := [] |}.

(** [AirodumpParser._csv_split]. *)
Definition csv_split (line : string) : list string :=
  strip <$> split_on comma (strip line).

(** The loop of [_parse_access_points] and [_parse_clients] that fills
    [data]. *)
Fixpoint data_rows (header : list string) (lines : list string)
    : list (list string) :=
  match lines with
  | [] => []
  | line :: rest =>
      if decide (strip line = EmptyString) then data_rows header rest
      else
        let parts := csv_split line in
        if decide (length header ≤ length parts)%nat
        then take (length header) parts :: data_rows header rest
        else data_rows header rest
  end.

(** [AirodumpParser._parse_access_points], up to the frame it hands to
    [_clean_ap_dataframe]; the cleaning, which renames and converts columns
    and keeps the rows, is not modelled. *)
Definition parse_access_points (lines : list string) : outcome Table :=
  match lines with
  | [] => Raises IndexError
  | first :: rest =>
      let header := csv_split first in
      Returns {| columns := header; rows := data_rows header rest |}
  end.

(** [AirodumpParser._parse_clients]. *)
Definition parse_clients (lines : list string) : outcome Table :=
  if decide (length lines < 2)%nat then Returns empty_table
  else
    match lines with
    | [] => Raises IndexError
    | first :: rest =>
        let header := csv_split first in
        match data_rows header rest with
        | [] => Returns empty_table
        | data => Returns {| columns := header; rows := data |}
        end
    end.

(** The loop of [parse] that finds [ap_start] and [client_start]; [i] is
    the index of the first line of [lines]. *)
Fixpoint scan (lines : list string) (i ap_start : nat) : nat * nat :=
  match lines with
  | [] => (ap_start, 0%nat)
  | line :: rest =>
      if startswith "BSSID" line then scan rest (S i) i
      else if startswith "Station MAC" line then (ap_start, i)
      else scan rest (S i) ap_start
  end.

(** [lines[a:b]]. *)
Definition slice {A} (l : list A) (a b : nat) : list A :=
  take (b - a) (drop a l).

(** [AirodumpParser.parse] on the lines of the capture file, for a parser
    whose [access_points] and [clients] are still [None]: the pair
    [(access_points, clients)] of the returned dict. *)
Definition parse (lines : list string) : outcome (Table * option Table) :=
  let '(ap_start, client_start) := scan lines 0 0 in
  let access_points :=
    if decide (0 < ap_start ∧ ap_start < client_start)%nat
    then match parse_access_points (slice lines ap_start client_start) with
         | Returns t => Returns (Some t)
         | Raises e => Raises e
         end
    else Returns None in
  match access_points with
  | Raises e => Raises e
  | Returns access_points =>
      let clients :=
        if decide (0 < client_start)%nat
        then match parse_clients (drop client_start lines) with
             | Returns t => Returns (Some t)
             | Raises e => Raises e
             end
        else Returns None in
      match clients with
      | Raises e => Raises e
      | Returns clients =>
          match access_points with
          | None => Raises TypeError
          | Some t => Returns (t, clients)
          end
      end
  end.

(** [int(channel)] for a number: truncation toward zero. *)
Definition py_int (q : Q) : Z := Z.quot (Qnum q) (Zpos (Qden q)).

(** [AirodumpParser._channel_to_frequency]. *)
Definition channel_to_frequency (channel : pyfloat) : option Z :=
  match channel with
  | NaN => None
  | Num q =>
      let channel := py_int q in
      if decide (1 ≤ channel ≤ 14)%Z then Some (2407 + channel * 5)%Z
      else if decide (36 ≤ channel ≤ 165)%Z then Some (5000 + channel * 5)%Z
      else None
  end.

(** The lambda applied to the frequency column, on a number or [None]:
    ['2.4 GHz' if f and f < 3000 else '5 GHz' if f else None]. *)
Definition band (f : option Z) : option string :=
  let truthy := match f with Some n => bool_decide (n ≠ 0%Z) | None => false end in
  if truthy && match f with Some n => bool_decide (n < 3000)%Z | None => false end
  then Some "2.4 GHz"
  else if truthy then Some "5 GHz" else None.

(** The floor name [parse_all_surveys] derives from the stem of a capture
    file name. *)
Definition floor_of_stem (filename : string) : string :=
  let parts := split_on underscore filename in
  if decide (2 ≤ length parts)%nat then default EmptyString (parts !! 1%nat)
  else "unknown".

(** The stem of [output_file], [f'{floor}_floor_parsed.csv']. *)
Definition output_stem (floor : string) : string := floor +:+ "_floor_parsed".

End ParsePiData.

(** [PiSurveyAnalyzer.__init__]: the floor name from the stem of the parsed
    file. *)
Definition analyzer_floor_name (stem : string) : string :=
  str_remove "_floor_parsed" stem.

(** ** Scripts/extract_acrylic_data.py: file names *)
Module ExtractAcrylicData.

(** A network name is a Python [str]: a sequence of Unicode code points. *)
Definition codepoint : Type := N.

(** The characters [' '], ['-'] and ['_'] of the tuple in the test. *)
Definition kept : list codepoint := [32; 45; 95]%N.
Definition low_line : codepoint := 95%N.

Section SafeSsid.

(** [c.isalnum()] for a one-character string: Python decides it with the
    Unicode character database, which is not reproduced here. *)
Variable isalnum : codepoint → bool.

(** The test [c.isalnum() or c in (' ', '-', '_')]. *)
Definition is_safe (c : codepoint) : bool :=
  isalnum c || bool_decide (c ∈ kept).

(** [safe_ssid]: every other character becomes an underscore. *)
Definition safe_ssid (ssid : list codepoint) : list codepoint :=
  (λ c, if is_safe c then c else low_line) <$> ssid.

End SafeSsid.

End ExtractAcrylicData.

(** ** Vocabulary of the properties of the other functions *)

(** The frames on the network of the floor directories that have data. *)
Definition floors_with_data (floor_dirs : list (option (list Row)))
    : list (list Row) :=
  filter (λ slu, slu ≠ []) (W.select_slu_users <$> omap id floor_dirs).

(** All the rows of all the floors. *)
Definition all_rows (floors_data : Charts.FloorsData) : list Row :=
  mjoin (snd <$> floors_data).

(** The number of rows on the network, over all floors, in a band. *)
Definition building_count (p : pyfloat → bool)
    (floors_data : Charts.FloorsData) : nat :=
  sum_nat ((λ '(_, df),
              count_signal signal_strength p (W.select_slu_users df))
           <$> floors_data).

(** The Acrylic numbers of a floor, as [compare_floor] looks them up. *)
Definition acrylic_of (f : Floor) : ValidatePiVsAcrylic.Acrylic :=
  match f with
  | Ground => {| ValidatePiVsAcrylic.bssids := 422;
                 ValidatePiVsAcrylic.networks := 30;
                 ValidatePiVsAcrylic.aps := 86;
                 ValidatePiVsAcrylic.avg_signal := (-55.3)%Q |}
  | Top => {| ValidatePiVsAcrylic.bssids := 446;
              ValidatePiVsAcrylic.networks := 45;
              ValidatePiVsAcrylic.aps := 103;
              ValidatePiVsAcrylic.avg_signal := (-55.4)%Q |}
  | Basement => {| ValidatePiVsAcrylic.bssids := 243;
                   ValidatePiVsAcrylic.networks := 17;
                   ValidatePiVsAcrylic.aps := 54;
                   ValidatePiVsAcrylic.avg_signal := (-45.7)%Q |}
  end.

(** [min(a, b) / max(a, b) * 100] for [max(a, b) ≠ 0]. *)
Definition match_value (a b : Z) : pyfloat :=
  Num (inject_Z (Z.min a b) / inject_Z (Z.max a b) * 100)%Q.

(** The dict [compare_floor] returns for floor [f] on the frame
    [pi_data], with the divisions carried out. *)
Definition validation_of (f : Floor) (pi_data : list PiRow)
    : ValidatePiVsAcrylic.Validation :=
  let acr := acrylic_of f in
  let pi_avg := mean (signal_dbm <$> PiSelection.pi_slu pi_data) in
  let pi_bssids := Z.of_nat (nunique (pi_bssid <$> pi_data)) in
  let pi_networks := Z.of_nat (nunique (essid <$> pi_data)) in
  {| ValidatePiVsAcrylic.pi_avg_signal := pi_avg;
     ValidatePiVsAcrylic.acrylic_avg_signal :=
       Num (ValidatePiVsAcrylic.avg_signal acr);
     ValidatePiVsAcrylic.signal_diff :=
       ValidatePiVsAcrylic.fabs
         (fsub pi_avg (Num (ValidatePiVsAcrylic.avg_signal acr)));
     ValidatePiVsAcrylic.pi_bssids := pi_bssids;
     ValidatePiVsAcrylic.acrylic_bssids := ValidatePiVsAcrylic.bssids acr;
     ValidatePiVsAcrylic.bssid_match :=
       match_value pi_bssids (ValidatePiVsAcrylic.bssids acr);
     ValidatePiVsAcrylic.network_match :=
       match_value pi_networks (ValidatePiVsAcrylic.networks acr) |}.

(** The floors whose Pi file exists. *)
Definition floors_present (pi_dir : PiDir) : list Floor :=
  filter (λ f, is_Some (pi_dir f)) floors.

(** The Pi frame of a floor has no row on the network with a signal. *)
Definition no_slu_signal (pi_data : list PiRow) : Prop :=
  valid (signal_dbm <$> PiSelection.pi_slu pi_data) = [].

(** A directory that holds the given frame for every floor. *)
Definition same_frame_everywhere (pi_data : list PiRow) : PiDir :=
  λ _, Some pi_data.

(** Two access points, one of them on the network. *)
Definition pi_example : list PiRow :=
  [{| essid := Some "SLU-users"; pi_bssid := Some "AA:BB";
      signal_dbm := Num (-56) |};
   {| essid := Some "eduroam"; pi_bssid := Some "CC:DD";
      signal_dbm := Num (-70) |}].

(** The detection match the dashboard shows for a floor, with the division
    carried out. *)
Definition detection_of (pi_dir : PiDir) (f : Floor) : pyfloat :=
  match pi_dir f with
  | Some pi_df =>
      match_value (Z.of_nat (nunique (pi_bssid <$> pi_df)))
                  (ValidationDashboard.acrylic_totals f)
  | None => of_nat 0
  end.

(** The characters of a string. *)
Definition chars (s : string) : list Ascii.ascii :=
  String.list_ascii_of_string s.

(** The number of occurrences of a character. *)
Definition count_char (c : Ascii.ascii) (s : string) : nat :=
  length (filter (λ x, x = c) (chars s)).

(** A string with no white space at either end. *)
Definition trimmed (s : string) : Prop := strip s = s.

(** The header lines [parse] looks for. *)
Definition ap_header (line : string) : Prop := startswith "BSSID" line = true.
Definition client_header (line : string) : Prop :=
  startswith "Station MAC" line = true.

(** A capture file cut at the first client header [s], with [h] the last
    access-point header before it and at least one line before [h]. *)
Definition capture (lines pre : list string) (h : string)
    (body : list string) (s : string) (post : list string) : Prop :=
  lines = pre ++ h :: body ++ s :: post
  ∧ pre ≠ []
  ∧ Forall (λ l, ¬ client_header l) pre
  ∧ ap_header h
  ∧ Forall (λ l, ¬ ap_header l ∧ ¬ client_header l) body
  ∧ client_header s.

(** The stem of a capture file that [parse_all_surveys] finds with the
    pattern [survey_*-01.csv]; [w] is what the star stands for. *)
Definition capture_stem (w : string) : string := "survey_" +:+ w +:+ "-01".

(** The stem of the file [<floor>_floor_parsed.csv] that the analysis and
    validation scripts open for a floor. *)
Definition parsed_stem (f : Floor) : string := floor_key f +:+ "_floor_parsed".

(** * Properties *)

(** ** Floats *)
Section Floats.
Local Open Scope Q_scope.

Lemma flt_Num p q : flt (Num p) (Num q) = true ↔ p < q.
Proof.
  unfold flt. rewrite negb_true_iff, <- not_true_iff_false, Qle_bool_iff.
  split; [apply Qnot_le_lt | apply Qlt_not_le].
Qed.

Lemma fgt_Num p q : fgt (Num p) (Num q) = true ↔ q < p.
Proof. apply flt_Num. Qed.

Lemma fle_Num p q : fle (Num p) (Num q) = true ↔ p <= q.
Proof. apply Qle_bool_iff. Qed.

Lemma flt_Num_false p q : flt (Num p) (Num q) = false ↔ q <= p.
Proof.
  rewrite <- not_true_iff_false, flt_Num.
  split; [apply Qnot_lt_le | apply Qle_not_lt].
Qed.

Lemma fle_Num_false p q : fle (Num p) (Num q) = false ↔ q < p.
Proof.
  rewrite <- not_true_iff_false, fle_Num.
  split; [apply Qnot_le_lt | apply Qlt_not_le].
Qed.

Lemma of_nat_pos n : (0 < n)%nat → 0 < inject_Z (Z.of_nat n).
Proof.
  intros Hn. change 0 with (inject_Z 0). rewrite <- Zlt_Qlt. lia.
Qed.

Lemma of_nat_nonneg n : 0 <= inject_Z (Z.of_nat n).
Proof.
  change 0 with (inject_Z 0). rewrite <- Zle_Qle. lia.
Qed.

Lemma inject_S n :
  inject_Z (Z.of_nat (S n)) == inject_Z (Z.of_nat n) + 1.
Proof.
  rewrite Nat2Z.inj_succ. unfold Z.succ. rewrite inject_Z_plus. reflexivity.
Qed.

Lemma truediv_ok p q :
  ¬ q == 0 → truediv (Num p) (Num q) = Ok (Num (p / q)).
Proof.
  intros Hq. unfold truediv.
  destruct (Qeq_bool q 0) eqn:E; [|done].
  apply Qeq_bool_iff in E. contradiction.
Qed.

Lemma percent_ok a n :
  (0 < n)%nat →
  percent (of_nat a) (of_nat n)
  = Ok (Num (inject_Z (Z.of_nat a) / inject_Z (Z.of_nat n) * 100)).
Proof.
  intros Hn. unfold percent, of_nat. rewrite truediv_ok; [done|].
  pose proof (of_nat_pos n Hn). lra.
Qed.

(** A ratio of counts [a <= n], as a percentage, is in [[0, 100]]. *)
Lemma ratio_between a n :
  (a ≤ n)%nat → (0 < n)%nat →
  0 <= inject_Z (Z.of_nat a) / inject_Z (Z.of_nat n) * 100 <= 100.
Proof.
  intros Han Hn.
  pose proof (of_nat_pos n Hn) as Hpos.
  pose proof (of_nat_nonneg a) as Ha.
  assert (inject_Z (Z.of_nat a) <= inject_Z (Z.of_nat n)) as Hle
    by (rewrite <- Zle_Qle; lia).
  assert (0 <= inject_Z (Z.of_nat a) / inject_Z (Z.of_nat n)) as H0
    by (apply Qle_shift_div_l; lra).
  assert (inject_Z (Z.of_nat a) / inject_Z (Z.of_nat n) <= 1) as H1
    by (apply Qle_shift_div_r; lra).
  lra.
Qed.

End Floats.

(** ** Series *)
Section Series.
Local Open Scope Q_scope.

Lemma Qsum_lower lo vs :
  Forall (λ v, lo <= v) vs →
  lo * inject_Z (Z.of_nat (length vs)) <= Qsum vs.
Proof.
  induction 1 as [|v vs Hv _ IH]; simpl length; simpl Qsum.
  - change (inject_Z (Z.of_nat 0)) with 0. lra.
  - rewrite inject_S, Qmult_plus_distr_r. lra.
Qed.

Lemma Qsum_upper hi vs :
  Forall (λ v, v <= hi) vs →
  Qsum vs <= hi * inject_Z (Z.of_nat (length vs)).
Proof.
  induction 1 as [|v vs Hv _ IH]; simpl length; simpl Qsum.
  - change (inject_Z (Z.of_nat 0)) with 0. lra.
  - rewrite inject_S, Qmult_plus_distr_r. lra.
Qed.

Lemma Qsum_lower_strict lo vs :
  Forall (λ v, lo < v) vs → vs ≠ [] →
  lo * inject_Z (Z.of_nat (length vs)) < Qsum vs.
Proof.
  induction 1 as [|v vs Hv Hvs IH]; [done|]. intros _.
  simpl length; simpl Qsum. rewrite inject_S, Qmult_plus_distr_r.
  destruct vs as [|w vs].
  - change (inject_Z (Z.of_nat (length []))) with 0. simpl. lra.
  - assert (lo * inject_Z (Z.of_nat (length (w :: vs))) < Qsum (w :: vs))
      by (by apply IH).
    lra.
Qed.

Lemma valid_Num (s : list pyfloat) :
  Forall (λ v, v ≠ NaN) s →
  length (valid s) = length s
  ∧ ∀ q, q ∈ valid s ↔ Num q ∈ s.
Proof.
  induction 1 as [|v s Hv _ [IHl IHe]]; simpl.
  - split; [done|]. intros q. split; inversion 1.
  - destruct v as [p|]; [|done]. unfold valid in *. simpl. split; [by rewrite IHl|].
    intros q. rewrite !elem_of_cons, IHe. split.
    + intros [->|?]; auto.
    + intros [[= ->]|?]; auto.
Qed.

Lemma valid_Forall (P : Q → Prop) (s : list pyfloat) :
  Forall (λ v, ∃ q, v = Num q ∧ P q) s →
  Forall P (valid s) ∧ length (valid s) = length s.
Proof.
  induction 1 as [|v s (q & -> & Hq) _ [IHP IHl]]; [done|].
  change (valid (Num q :: s)) with (q :: valid s).
  split; [by constructor | simpl; by f_equal].
Qed.

(** The mean of a non-empty Series of numbers is a number. *)
Lemma mean_Num (s : list pyfloat) :
  Forall (λ v, v ≠ NaN) s → s ≠ [] →
  mean s = Num (Qsum (valid s) / inject_Z (Z.of_nat (length s))).
Proof.
  intros Hs Hne. destruct (valid_Num s Hs) as [Hl _].
  unfold mean. rewrite <- Hl.
  destruct (valid s) eqn:E; [|done].
  destruct s; [done | discriminate Hl].
Qed.

Lemma mean_ge lo (s : list pyfloat) :
  Forall (λ v, ∃ q, v = Num q ∧ lo <= q) s → s ≠ [] →
  ∃ q, mean s = Num q ∧ lo <= q.
Proof.
  intros Hs Hne. destruct (valid_Forall _ _ Hs) as [HP Hl].
  rewrite mean_Num; [|by eapply Forall_impl; [done|intros ? (? & -> & _)]|done].
  eexists; split; [done|].
  apply Qle_shift_div_l.
  - apply of_nat_pos. destruct s; [done | simpl; lia].
  - rewrite <- Hl. by apply Qsum_lower.
Qed.

Lemma mean_le hi (s : list pyfloat) :
  Forall (λ v, ∃ q, v = Num q ∧ q <= hi) s → s ≠ [] →
  ∃ q, mean s = Num q ∧ q <= hi.
Proof.
  intros Hs Hne. destruct (valid_Forall _ _ Hs) as [HP Hl].
  rewrite mean_Num; [|by eapply Forall_impl; [done|intros ? (? & -> & _)]|done].
  eexists; split; [done|].
  apply Qle_shift_div_r.
  - apply of_nat_pos. destruct s; [done | simpl; lia].
  - rewrite <- Hl. by apply Qsum_upper.
Qed.

Lemma mean_gt lo (s : list pyfloat) :
  Forall (λ v, ∃ q, v = Num q ∧ lo < q) s → s ≠ [] →
  ∃ q, mean s = Num q ∧ lo < q.
Proof.
  intros Hs Hne. destruct (valid_Forall _ _ Hs) as [HP Hl].
  rewrite mean_Num; [|by eapply Forall_impl; [done|intros ? (? & -> & _)]|done].
  eexists; split; [done|].
  apply Qlt_shift_div_l.
  - apply of_nat_pos. destruct s; [done | simpl; lia].
  - rewrite <- Hl. apply Qsum_lower_strict; [done|].
    intros E. rewrite E in Hl. by destruct s.
Qed.

(** [unique] keeps exactly the values of the Series, each once. *)
Lemma unique_from `{EqDecision A} (s seen : list A) :
  NoDup seen →
  let u := foldl (λ seen v, if decide (v ∈ seen) then seen else seen ++ [v])
                 seen s in
  NoDup u ∧ ∀ v, v ∈ u ↔ v ∈ seen ∨ v ∈ s.
Proof.
  revert seen. induction s as [|a s IH]; intros seen Hnd; simpl.
  - split; [done|]. intros v. rewrite elem_of_nil. tauto.
  - destruct (decide (a ∈ seen)) as [Hin|Hout].
    + destruct (IH seen Hnd) as [Hu He]. split; [done|].
      intros v. rewrite He, elem_of_cons. split; [tauto|].
      intros [?|[->|?]]; auto.
    + destruct (IH (seen ++ [a])) as [Hu He].
      { apply NoDup_app. split_and!; [done| |apply NoDup_singleton].
        intros v Hv Hv'%list_elem_of_singleton. by subst. }
      split; [done|].
      intros v. rewrite He, elem_of_app, list_elem_of_singleton, elem_of_cons.
      tauto.
Qed.

Lemma NoDup_unique `{EqDecision A} (s : list A) : NoDup (unique s).
Proof. apply (unique_from s []). constructor. Qed.

Lemma elem_of_unique `{EqDecision A} (s : list A) v : v ∈ unique s ↔ v ∈ s.
Proof.
  destruct (unique_from s [] (NoDup_nil_2)) as [_ He].
  unfold unique. rewrite He, elem_of_nil. tauto.
Qed.

(** The length of [unique] is the cardinality of the set of values. *)
Lemma length_unique `{Countable A} (s : list A) :
  length (unique s) = size (list_to_set s : gset A).
Proof.
  rewrite <- (size_list_to_set (C := gset A) (unique s)) by apply NoDup_unique.
  f_equal. apply set_eq. intros v.
  by rewrite !elem_of_list_to_set, elem_of_unique.
Qed.

End Series.

(** ** Grouping by location *)
Section Groups.

Lemma elem_of_groupby k g rows :
  (k, g) ∈ groupby rows ↔
  (∃ r, r ∈ rows ∧ location r = Some k)
  ∧ g = filter (λ r, location r = Some k) rows.
Proof.
  unfold groupby. rewrite list_elem_of_fmap. split.
  - intros (k' & [= -> ->] & Hk). split; [|done].
    rewrite merge_sort_Permutation, elem_of_remove_dups in Hk.
    by apply list_elem_of_omap in Hk.
  - intros [Hk ->]. exists k. split; [done|].
    rewrite merge_sort_Permutation, elem_of_remove_dups.
    by apply list_elem_of_omap.
Qed.

(** Every group holds at least one row. *)
Lemma groupby_nonempty k g rows : (k, g) ∈ groupby rows → g ≠ [].
Proof.
  intros [(r & Hr & Hk) ->]%elem_of_groupby E.
  assert (r ∈ filter (λ r, location r = Some k) rows) as Hin
    by (by apply list_elem_of_filter).
  rewrite E in Hin. by apply elem_of_nil in Hin.
Qed.

(** The group keys are pairwise distinct. *)
Lemma groupby_keys_NoDup rows : NoDup (fst <$> groupby rows).
Proof.
  unfold groupby. rewrite <- list_fmap_compose.
  rewrite (list_fmap_ext _ id) by done.
  rewrite list_fmap_id, merge_sort_Permutation. apply NoDup_remove_dups.
Qed.

(** The key order is total, so the groups come sorted by key. *)
Global Instance loc_le_total : Total loc_le.
Proof.
  intros [a1 a2] [b1 b2]. unfold loc_le. simpl.
  destruct (Qclt_le_dec a1 b1) as [?|H1]; [by left; left|].
  destruct (Qclt_le_dec b1 a1) as [?|H2]; [by right; left|].
  assert (a1 = b1) as -> by (by apply Qcle_antisym).
  destruct (Qclt_le_dec a2 b2) as [H|H].
  - left. right. split; [done|]. by apply Qclt_le_weak.
  - right. right. done.
Qed.

Lemma groupby_sorted rows : Sorted loc_le (fst <$> groupby rows).
Proof.
  unfold groupby. rewrite <- list_fmap_compose.
  rewrite (list_fmap_ext _ id) by done.
  rewrite list_fmap_id. apply Sorted_merge_sort. apply _.
Qed.

End Groups.

(** ** Coverage bands *)
Section Bands.
Local Open Scope Q_scope.

Lemma is_excellent_iff q : is_excellent (Num q) = true ↔ -50 < q.
Proof. apply fgt_Num. Qed.

Lemma is_good_iff q : is_good (Num q) = true ↔ -65 < q ∧ q <= -50.
Proof. unfold is_good. rewrite andb_true_iff, fle_Num, fgt_Num. tauto. Qed.

Lemma is_fair_iff q : is_fair (Num q) = true ↔ -80 < q ∧ q <= -65.
Proof. unfold is_fair. rewrite andb_true_iff, fle_Num, fgt_Num. tauto. Qed.

Lemma is_poor_iff q : is_poor (Num q) = true ↔ q <= -80.
Proof. apply fle_Num. Qed.

Lemma bands_hit_Num q : bands_hit (Num q) = 1%nat.
Proof.
  unfold bands_hit.
  destruct (is_excellent (Num q)) eqn:E, (is_good (Num q)) eqn:G,
           (is_fair (Num q)) eqn:F, (is_poor (Num q)) eqn:P;
    try reflexivity; exfalso;
    rewrite <- ?not_true_iff_false in *;
    rewrite ?is_excellent_iff, ?is_good_iff, ?is_fair_iff, ?is_poor_iff in *;
    lra.
Qed.

(** A missing signal is counted in no band. *)
Lemma bands_hit_NaN : bands_hit NaN = 0%nat.
Proof. reflexivity. Qed.

Lemma length_filter_b2n {R} (p : R → bool) (rows : list R) :
  length (filter (λ r, p r) rows) = foldr (λ r n, Nat.b2n (p r) + n)%nat 0%nat rows.
Proof.
  induction rows as [|r rows IH]; [done|].
  rewrite filter_cons. simpl foldr. rewrite <- IH.
  destruct (p r); simpl; by rewrite ?decide_True, ?decide_False by auto.
Qed.

(** The four counts add up to the number of rows with a signal value. *)
Lemma count_signal_sum {R} (col : R → pyfloat) (rows : list R) :
  (count_signal col is_excellent rows + count_signal col is_good rows
   + count_signal col is_fair rows + count_signal col is_poor rows
   = count_signal col notna rows)%nat.
Proof.
  unfold count_signal. rewrite !length_filter_b2n.
  induction rows as [|r rows IH]; [done|].
  simpl foldr.
  pose proof (bands_hit_Num) as HN. unfold bands_hit in HN.
  destruct (col r) as [q|] eqn:E.
  - specialize (HN q). simpl notna. change (Nat.b2n true) with 1%nat. lia.
  - simpl. lia.
Qed.

Lemma count_signal_sum_le {R} (col : R → pyfloat) (rows : list R) :
  (count_signal col is_excellent rows + count_signal col is_good rows
   + count_signal col is_fair rows + count_signal col is_poor rows
   ≤ length rows)%nat.
Proof. rewrite count_signal_sum. apply length_filter. Qed.

Lemma count_signal_sum_valid {R} (col : R → pyfloat) (rows : list R) :
  Forall (λ r, col r ≠ NaN) rows →
  (count_signal col is_excellent rows + count_signal col is_good rows
   + count_signal col is_fair rows + count_signal col is_poor rows
   = length rows)%nat.
Proof.
  intros Hv. rewrite count_signal_sum. unfold count_signal.
  induction Hv as [|r rows Hr _ IH]; [done|].
  rewrite filter_cons, decide_True by (by destruct (col r)).
  simpl. by f_equal.
Qed.

(** [analyze_slu_network] raises nothing, and counts no row twice. *)
Lemma analyze_slu_network_bands data :
  ∃ r, AnalyzePiSurvey.analyze_slu_network data = Ok r
       ∧ ∀ b, r = Some b →
           (AnalyzePiSurvey.excellent b + AnalyzePiSurvey.good b
            + AnalyzePiSurvey.fair b + AnalyzePiSurvey.poor b
            ≤ AnalyzePiSurvey.total b)%nat.
Proof.
  unfold AnalyzePiSurvey.analyze_slu_network.
  case_decide as Hlen; [|by eexists].
  rewrite !percent_ok by done. eexists. split; [reflexivity|].
  intros b [= <-]. simpl. apply count_signal_sum_le.
Qed.

End Bands.

(** ** Handover zones of [analyze_floor] *)
Section Handover.
Local Open Scope Q_scope.

Lemma elem_of_handover_zones z locs :
  z ∈ W.handover_zones locs ↔
  ∃ k g, (k, g) ∈ locs ∧ z = zone_of k g ∧ (2 ≤ W.num_aps z)%nat.
Proof.
  induction locs as [|[k g] locs IH]; simpl.
  - rewrite elem_of_nil. split; [done|]. by intros (? & ? & []%elem_of_nil & _).
  - case_decide as Hn.
    + rewrite elem_of_cons, IH. split.
      * intros [->|(k' & g' & ? & ? & ?)].
        -- exists k, g. split_and!; [left|done|done].
        -- exists k', g'. split_and!; [by right|done|done].
      * intros (k' & g' & [[= -> ->]|?]%elem_of_cons & -> & ?); [by left|].
        right. by exists k', g'.
    + rewrite IH. split.
      * intros (k' & g' & ? & ? & ?). exists k', g'. split_and!; [by right|done|done].
      * intros (k' & g' & [[= -> ->]|?]%elem_of_cons & -> & ?); [done|].
        by exists k', g'.
Qed.

Lemma length_handover_zones locs :
  (length (W.handover_zones locs) ≤ length locs)%nat.
Proof.
  induction locs as [|[k g] locs IH]; simpl; [done|].
  case_decide; simpl; lia.
Qed.

Lemma strong_signal r g :
  r ∈ W.strong_aps g → ∃ q, signal_strength r = Num q ∧ -70 < q.
Proof.
  intros [Hs _]%list_elem_of_filter.
  destruct (signal_strength r) as [q|]; [|done].
  exists q. split; [done|]. by apply fgt_Num, Is_true_true.
Qed.

(** The invariant of the records of [handover_zones]. *)
Lemma zone_invariant z locs :
  z ∈ W.handover_zones locs →
  (2 ≤ W.num_aps z)%nat ∧ ∃ q, W.avg_signal z = Num q ∧ -70 < q.
Proof.
  intros (k & g & _ & -> & Hn)%elem_of_handover_zones. split; [done|].
  simpl in *. apply mean_gt.
  - apply Forall_fmap, Forall_forall. intros r Hr. by eapply strong_signal.
  - destruct (W.strong_aps g); [simpl in Hn; lia | done].
Qed.

Lemma zones_avg_signal locs :
  Forall (λ v, ∃ q, v = Num q ∧ -70 < q) (W.avg_signal <$> W.handover_zones locs).
Proof.
  apply Forall_fmap, Forall_forall. intros z Hz.
  by destruct (zone_invariant z locs Hz).
Qed.

Lemma zones_num_aps locs :
  Forall (λ v, ∃ q, v = Num q ∧ 2 <= q)
         (of_nat ∘ W.num_aps <$> W.handover_zones locs).
Proof.
  apply Forall_fmap, Forall_forall. intros z Hz.
  destruct (zone_invariant z locs Hz) as [Hn _].
  eexists. split; [done|]. change 2 with (inject_Z 2).
  rewrite <- Zle_Qle. lia.
Qed.

End Handover.

(** ** [analyze_floor] raises nothing *)
Section Analysis.
Local Open Scope Q_scope.

Lemma truediv_const v q : ¬ q == 0 → truediv v (Num q) = Ok (fdiv v q).
Proof.
  intros Hq. destruct v; [by apply truediv_ok|].
  unfold truediv. destruct (Qeq_bool q 0) eqn:E; [|done].
  apply Qeq_bool_iff in E. contradiction.
Qed.

Lemma analyze_slu_users_ok slu_users :
  slu_users ≠ [] → W.analyze_slu_users slu_users = Ok (analysis_of slu_users).
Proof.
  intros Hne.
  assert (0 < length slu_users)%nat as Hlen
    by (destruct slu_users; [done | simpl; lia]).
  unfold W.analyze_slu_users, analysis_of.
  rewrite (decide_True (P := (0 < length slu_users)%nat)) by done.
  rewrite truediv_const by lra.
  destruct (decide (0 < length (groupby slu_users))%nat);
    rewrite !percent_ok by done; reflexivity.
Qed.

Lemma analyze_floor_ok df :
  W.analyze_floor df =
  match W.select_slu_users df with
  | [] => Ok None
  | slu_users => Ok (Some (analysis_of slu_users))
  end.
Proof.
  unfold W.analyze_floor.
  destruct (W.select_slu_users df) as [|r slu] eqn:E; [done|].
  rewrite decide_False by done.
  by rewrite analyze_slu_users_ok.
Qed.

Lemma analyze_floor_handover_df df a :
  W.analyze_floor df = Ok (Some a) →
  W.handover_df a = W.handover_zones (groupby (W.select_slu_users df))
  ∧ W.total_locations a = length (groupby (W.select_slu_users df)).
Proof.
  rewrite analyze_floor_ok.
  destruct (W.select_slu_users df); [done|]. by intros [= <-].
Qed.

(** The lists of one floor of [create_handover_scatter]. *)
Lemma handover_scatter_lists df :
  V.handover_scatter df =
  match W.select_slu_users df with
  | [] => None
  | slu => Some (V.scatter_loop (groupby slu))
  end.
Proof.
  unfold V.handover_scatter.
  destruct (W.select_slu_users df); [done|].
  by rewrite decide_True by (simpl; lia).
Qed.

End Analysis.

(** ** Handover classification *)
Section Classification.
Local Open Scope Q_scope.

Lemma elem_of_qualifying_aps slu_users k b :
  b ∈ qualifying_aps slu_users k ↔
  ∃ r q, r ∈ slu_users ∧ location r = Some k ∧ bssid r = b
         ∧ signal_strength r = Num q ∧ -70 < q.
Proof.
  unfold qualifying_aps. rewrite elem_of_list_to_set, list_elem_of_fmap.
  split.
  - intros (r & -> & [[Hk Hs] Hr]%list_elem_of_filter).
    destruct (signal_strength r) as [q|] eqn:E; [|done].
    exists r, q. split_and!; try done. by apply fgt_Num, Is_true_true.
  - intros (r & q & Hr & Hk & <- & Hs & Hq). exists r. split; [done|].
    apply list_elem_of_filter. split_and!; try done.
    rewrite Hs. by apply Is_true_true, fgt_Num.
Qed.

(** The count [num_aps] of a group is the cardinality of that set. *)
Lemma num_aps_size slu_users k :
  length (unique (bssid <$>
    W.strong_aps (filter (λ r, location r = Some k) slu_users)))
  = size (qualifying_aps slu_users k).
Proof.
  rewrite length_unique. f_equal. unfold qualifying_aps, W.strong_aps.
  rewrite list_filter_filter. f_equal. f_equal.
  apply list_filter_iff. intros r. unfold W.handover_threshold. tauto.
Qed.

Lemma qualifying_aps_located slu_users k :
  (2 ≤ size (qualifying_aps slu_users k))%nat →
  ∃ r, r ∈ slu_users ∧ location r = Some k.
Proof.
  intros Hs.
  destruct (set_choose_L (qualifying_aps slu_users k)) as [b Hb].
  - intros E. rewrite E, size_empty in Hs. lia.
  - apply elem_of_qualifying_aps in Hb as (r & ? & ? & ? & _). by exists r.
Qed.

Lemma elem_of_scatter_zones z locs :
  z ∈ (V.scatter_loop locs).1 ↔
  ∃ k g, (k, g) ∈ locs
         ∧ z = {| V.x := k.1; V.y := k.2;
                  V.signal := mean (signal_strength <$> g);
                  V.aps := length (unique (bssid <$> W.strong_aps g)) |}
         ∧ (2 ≤ V.aps z)%nat.
Proof.
  induction locs as [|[k g] locs IH]; simpl.
  - rewrite elem_of_nil. split; [done|]. by intros (? & ? & []%elem_of_nil & _).
  - destruct (V.scatter_loop locs) as [hz nh]. simpl in IH.
    case_decide as Hn; simpl.
    + rewrite elem_of_cons, IH. split.
      * intros [->|(k' & g' & ? & ? & ?)].
        -- exists k, g. split_and!; [left|done|done].
        -- exists k', g'. split_and!; [by right|done|done].
      * intros (k' & g' & [[= -> ->]|?]%elem_of_cons & -> & ?); [by left|].
        right. by exists k', g'.
    + rewrite IH. split.
      * intros (k' & g' & ? & ? & ?). exists k', g'. split_and!; [by right|done|done].
      * intros (k' & g' & [[= -> ->]|?]%elem_of_cons & -> & ?); [done|].
        by exists k', g'.
Qed.

Lemma elem_of_scatter_non z locs :
  z ∈ (V.scatter_loop locs).2 ↔
  ∃ k g, (k, g) ∈ locs
         ∧ z = {| V.nx := k.1; V.ny := k.2;
                  V.nsignal := mean (signal_strength <$> g) |}
         ∧ (length (unique (bssid <$> W.strong_aps g)) < 2)%nat.
Proof.
  induction locs as [|[k g] locs IH]; simpl.
  - rewrite elem_of_nil. split; [done|]. by intros (? & ? & []%elem_of_nil & _).
  - destruct (V.scatter_loop locs) as [hz nh]. simpl in IH.
    case_decide as Hn; simpl.
    + rewrite IH. split.
      * intros (k' & g' & ? & ? & ?). exists k', g'. split_and!; [by right|done|done].
      * intros (k' & g' & [[= -> ->]|?]%elem_of_cons & -> & Hlt);
          [exfalso; exact (Nat.lt_irrefl _ (Nat.le_lt_trans _ _ _ Hn Hlt))|].
        by exists k', g'.
    + rewrite elem_of_cons, IH. split.
      * intros [->|(k' & g' & ? & ? & ?)].
        -- exists k, g. split_and!; [left|done|].
           apply Nat.nle_gt. exact Hn.
        -- exists k', g'. split_and!; [by right|done|done].
      * intros (k' & g' & [[= -> ->]|?]%elem_of_cons & -> & ?); [by left|].
        right. by exists k', g'.
Qed.

End Classification.

Section ClassificationTheorems.
Local Open Scope Q_scope.

Lemma analyze_zone_at slu_users k :
  (∃ z, z ∈ W.handover_zones (groupby slu_users) ∧ (W.x z, W.y z) = k)
  ↔ (2 ≤ size (qualifying_aps slu_users k))%nat.
Proof.
  split.
  - intros (z & (k' & g & Hin & -> & Hn)%elem_of_handover_zones & Hk).
    destruct k'; simpl in Hk; subst k.
    apply elem_of_groupby in Hin as [_ ->].
    simpl in Hn. by rewrite num_aps_size in Hn.
  - intros Hs. pose proof (qualifying_aps_located _ _ Hs) as Hr.
    exists (zone_of k (filter (λ r, location r = Some k) slu_users)).
    split; [|by destruct k].
    apply elem_of_handover_zones. eexists k, _. split_and!; [|done|].
    + by apply elem_of_groupby.
    + simpl. by rewrite num_aps_size.
Qed.

Lemma scatter_zone_at slu_users k :
  (∃ z, z ∈ (V.scatter_loop (groupby slu_users)).1 ∧ (V.x z, V.y z) = k)
  ↔ (2 ≤ size (qualifying_aps slu_users k))%nat.
Proof.
  split.
  - intros (z & (k' & g & Hin & -> & Hn)%elem_of_scatter_zones & Hk).
    destruct k'; simpl in Hk; subst k.
    apply elem_of_groupby in Hin as [_ ->].
    simpl in Hn. by rewrite num_aps_size in Hn.
  - intros Hs. pose proof (qualifying_aps_located _ _ Hs) as Hr.
    eexists. split.
    + apply elem_of_scatter_zones. eexists k, _. split_and!; [|done|].
      * by apply elem_of_groupby.
      * simpl. by rewrite num_aps_size.
    + by destruct k.
Qed.

Lemma scatter_non_handover_at slu_users k :
  (∃ z, z ∈ (V.scatter_loop (groupby slu_users)).2 ∧ (V.nx z, V.ny z) = k)
  ↔ (∃ r, r ∈ slu_users ∧ location r = Some k)
    ∧ (size (qualifying_aps slu_users k) < 2)%nat.
Proof.
  split.
  - intros (z & (k' & g & Hin & -> & Hn)%elem_of_scatter_non & Hk).
    destruct k'; simpl in Hk; subst k.
    apply elem_of_groupby in Hin as [Hr ->].
    by rewrite num_aps_size in Hn.
  - intros [Hr Hs]. eexists. split.
    + apply elem_of_scatter_non. eexists k, _. split_and!; [|done|].
      * by apply elem_of_groupby.
      * by rewrite num_aps_size.
    + by destruct k.
Qed.

Lemma analyze_num_aps slu_users z :
  z ∈ W.handover_zones (groupby slu_users) →
  W.num_aps z = size (qualifying_aps slu_users (W.x z, W.y z)).
Proof.
  intros (k & g & Hin & -> & _)%elem_of_handover_zones.
  apply elem_of_groupby in Hin as [_ ->].
  simpl. rewrite num_aps_size. by destruct k.
Qed.

Lemma repeated_scan_one_ap k b n :
  size (qualifying_aps (repeated_scan k b n) k) = 1%nat
  ∧ W.handover_zones (groupby (repeated_scan k b n)) = []
  ∧ (V.scatter_loop (groupby (repeated_scan k b n))).1 = [].
Proof.
  assert (size (qualifying_aps (repeated_scan k b n) k) = 1%nat) as Hone.
  { unfold qualifying_aps, repeated_scan.
    rewrite !filter_cons, filter_nil.
    rewrite !decide_True by (by destruct k).
    rewrite !fmap_cons, fmap_nil, !list_to_set_cons, list_to_set_nil.
    cbn [bssid]. rewrite union_empty_r_L, union_idemp_L.
    apply size_singleton. }
  split; [done|]. split.
  - destruct (W.handover_zones _) as [|z zs] eqn:E; [done|].
    assert (2 ≤ size (qualifying_aps (repeated_scan k b n) (W.x z, W.y z)))%nat
      as Hz.
    { apply analyze_zone_at. exists z. split; [|done]. rewrite E. left. }
    assert ((W.x z, W.y z) = k) as Hk.
    { apply qualifying_aps_located in Hz as (r & Hr & Hl).
      unfold repeated_scan in Hr.
      apply elem_of_cons in Hr as [->|Hr];
        [|apply list_elem_of_singleton in Hr as ->];
        destruct k; by injection Hl as <- <-. }
    rewrite Hk in Hz. lia.
  - destruct ((V.scatter_loop _).1) as [|z zs] eqn:E; [done|].
    assert (2 ≤ size (qualifying_aps (repeated_scan k b n) (V.x z, V.y z)))%nat
      as Hz.
    { apply scatter_zone_at. exists z. split; [|done]. rewrite E. left. }
    assert ((V.x z, V.y z) = k) as Hk.
    { apply qualifying_aps_located in Hz as (r & Hr & Hl).
      unfold repeated_scan in Hr.
      apply elem_of_cons in Hr as [->|Hr];
        [|apply list_elem_of_singleton in Hr as ->];
        destruct k; by injection Hl as <- <-. }
    rewrite Hk in Hz. lia.
Qed.

(** C1. A location is a handover zone, in [analyze_floor] and in
    [create_handover_scatter], exactly when the set of distinct [bssid]
    values among its measurements with signal above -70 dBm has at least
    two elements; the scatter's other list holds the remaining surveyed
    locations; [num_aps] is the cardinality of that set; two records of
    the same BSSID at -60 dBm at one location count once, so that location
    is no handover zone. *)
Theorem handover_zone_iff_two_distinct_strong_aps
    (slu_users : list Row) (k : Loc) :
  ((∃ z, z ∈ W.handover_zones (groupby slu_users) ∧ (W.x z, W.y z) = k)
     ↔ (2 ≤ size (qualifying_aps slu_users k))%nat)
  ∧ ((∃ z, z ∈ (V.scatter_loop (groupby slu_users)).1 ∧ (V.x z, V.y z) = k)
     ↔ (2 ≤ size (qualifying_aps slu_users k))%nat)
  ∧ ((∃ z, z ∈ (V.scatter_loop (groupby slu_users)).2
           ∧ (V.nx z, V.ny z) = k)
     ↔ (∃ r, r ∈ slu_users ∧ location r = Some k)
       ∧ (size (qualifying_aps slu_users k) < 2)%nat)
  ∧ (∀ z, z ∈ W.handover_zones (groupby slu_users) →
          W.num_aps z = size (qualifying_aps slu_users (W.x z, W.y z)))
  ∧ (∀ b n, size (qualifying_aps (repeated_scan k b n) k) = 1%nat
            ∧ W.handover_zones (groupby (repeated_scan k b n)) = []
            ∧ (V.scatter_loop (groupby (repeated_scan k b n))).1 = []).
Proof.
  split_and!.
  - apply analyze_zone_at.
  - apply scatter_zone_at.
  - apply scatter_non_handover_at.
  - apply analyze_num_aps.
  - apply repeated_scan_one_ap.
Qed.

End ClassificationTheorems.

(** ** Band theorems *)
Section BandTheorems.
Local Open Scope Q_scope.

(** C2. The four bands are half-open as tabled: a signal is Excellent
    above -50, Good in (-65, -50], Fair in (-80, -65] and Poor at or below
    -80, so exactly -50 is Good and not Excellent, exactly -65 is Fair,
    exactly -80 is Poor, and every signal value is counted in exactly one
    band. *)
Theorem bands_half_open (q : Q) :
  (is_excellent (Num q) = true ↔ -50 < q)
  ∧ (is_good (Num q) = true ↔ -65 < q ∧ q <= -50)
  ∧ (is_fair (Num q) = true ↔ -80 < q ∧ q <= -65)
  ∧ (is_poor (Num q) = true ↔ q <= -80)
  ∧ bands_hit (Num q) = 1%nat
  ∧ (is_good (Num (-50)) = true ∧ is_excellent (Num (-50)) = false)
  ∧ (is_fair (Num (-65)) = true ∧ is_good (Num (-65)) = false)
  ∧ (is_poor (Num (-80)) = true ∧ is_fair (Num (-80)) = false).
Proof.
  split_and!; try reflexivity.
  - apply is_excellent_iff.
  - apply is_good_iff.
  - apply is_fair_iff.
  - apply is_poor_iff.
  - apply bands_hit_Num.
Qed.

(** C3. On a frame whose signal values are all present, [analyze_floor]
    returns counts (natural numbers) for the four bands that add up to
    the number of measurements. *)
Theorem band_counts_sum_to_total (df : list Row) :
  W.select_slu_users df ≠ [] →
  Forall (λ r, signal_strength r ≠ NaN) (W.select_slu_users df) →
  ∃ a, W.analyze_floor df = Ok (Some a)
       ∧ W.total a = length (W.select_slu_users df)
       ∧ (W.excellent a + W.good a + W.fair a + W.poor a = W.total a)%nat
       ∧ (0 ≤ W.excellent a ∧ 0 ≤ W.good a
          ∧ 0 ≤ W.fair a ∧ 0 ≤ W.poor a)%nat.
Proof.
  intros Hne Hv. rewrite analyze_floor_ok.
  destruct (W.select_slu_users df) as [|r slu] eqn:E; [done|].
  eexists. split; [done|]. split; [done|]. split; [|lia].
  by apply count_signal_sum_valid.
Qed.

End BandTheorems.

(** ** Scores *)
Section Scores.
Local Open Scope Q_scope.

Lemma efficiency_Num h s d :
  W.efficiency (Num h) (Num s) (Num d) = Num (h * 0.4 + s * 0.3 + d * 0.3).
Proof. reflexivity. Qed.

(** [min(100, q)] keeps any lower bound [c <= 100] of [q]. *)
Lemma py_min_cap c q :
  c <= q → c <= 100 →
  ∃ d, py_min (Num 100) (Num q) = Num d ∧ c <= d ∧ d <= 100.
Proof.
  intros Hq Hc. unfold py_min.
  destruct (flt (Num q) (Num 100)) eqn:E.
  - apply flt_Num in E. exists q. split_and!; [done|done|lra].
  - exists 100. split_and!; [done|done|lra].
Qed.

Lemma signal_quality_between v : between 0 100 (W.signal_quality v).
Proof.
  unfold W.signal_quality. destruct v as [q|].
  - simpl fadd. simpl fmul. unfold py_max, fgt.
    destruct (flt (Num 0) (Num ((q + 100) * 2))) eqn:E.
    + apply flt_Num in E.
      destruct (py_min_cap 0 ((q + 100) * 2)) as (d & -> & ? & ?); [lra..|].
      by split.
    + change (between 0 100 (Num 0)). split; lra.
  - change (between 0 100 (Num 0)). split; lra.
Qed.

(** Without handover zones the mean signal is taken as -100 dBm, which
    the score maps to 0. *)
Lemma signal_quality_floor q : q == -100 → W.signal_quality (Num q) = Num 0.
Proof.
  intros Hq. unfold W.signal_quality. simpl fadd. simpl fmul.
  unfold py_max, fgt.
  destruct (flt (Num 0) (Num ((q + 100) * 2))) eqn:E; [|done].
  apply flt_Num in E. lra.
Qed.

(** The density score of a mean AP count [p >= c]. *)
Lemma density_bounds c p :
  c <= p → c * 5 <= 100 →
  ∃ d, py_min (Num 100) (fmul (fdiv (Num p) 20) (Num 100)) = Num d
       ∧ c * 5 <= d ∧ d <= 100.
Proof.
  intros Hp Hc. simpl fdiv. simpl fmul.
  apply py_min_cap; [|done].
  assert (p / 20 * 100 == p * 5) as -> by (field; lra). lra.
Qed.

Lemma handover_coverage_between slu_users :
  between 0 100 (W.handover_coverage (analysis_of slu_users)).
Proof.
  simpl. case_decide.
  - apply ratio_between; [apply length_handover_zones | done].
  - change (between 0 100 (Num 0)). split; lra.
Qed.

Lemma coverage_score_between slu_users :
  slu_users ≠ [] → between 0 100 (W.coverage_score (analysis_of slu_users)).
Proof.
  intros Hne. simpl. apply ratio_between.
  - pose proof (count_signal_sum_le signal_strength slu_users). lia.
  - destruct slu_users; [done | simpl; lia].
Qed.

Lemma avg_aps_per_zone_ge locs :
  W.handover_zones locs ≠ [] →
  ∃ p, mean (of_nat ∘ W.num_aps <$> W.handover_zones locs) = Num p ∧ 2 <= p.
Proof.
  intros Hne. apply mean_ge; [apply zones_num_aps|].
  by destruct (W.handover_zones locs).
Qed.

Lemma density_score_between slu_users :
  between 0 100 (W.density_score (analysis_of slu_users)).
Proof.
  simpl. case_decide as Hz.
  - destruct (avg_aps_per_zone_ge (groupby slu_users)) as (p & -> & Hp).
    { intros E. rewrite E in Hz. simpl in Hz. lia. }
    destruct (density_bounds 0 p) as (d & -> & ? & ?); [lra..|].
    split; lra.
  - destruct (density_bounds 0 0) as (d & Hd & ? & ?); [lra..|].
    unfold of_nat. change (inject_Z (Z.of_nat 0)) with 0.
    rewrite Hd. split; lra.
Qed.

(** With a handover zone the mean AP count is at least 2, so the density
    score is at least 10. *)
Lemma density_score_ge_10 slu_users :
  W.handover_zones (groupby slu_users) ≠ [] →
  ∃ d, W.density_score (analysis_of slu_users) = Num d ∧ 10 <= d ∧ d <= 100.
Proof.
  intros Hne. simpl. rewrite decide_True.
  - destruct (avg_aps_per_zone_ge _ Hne) as (p & -> & Hp).
    destruct (density_bounds 2 p) as (d & -> & ? & ?); [lra..|].
    exists d. split_and!; [done|lra|done].
  - destruct (W.handover_zones _); [done | simpl; lia].
Qed.

Lemma density_score_no_zones slu_users :
  W.handover_zones (groupby slu_users) = [] →
  ∃ d, W.density_score (analysis_of slu_users) = Num d ∧ d == 0.
Proof.
  intros E. simpl. rewrite E. simpl. eexists. split; [reflexivity|].
  reflexivity.
Qed.

Lemma efficiency_between h s d :
  between 0 100 h → between 0 100 s → between 0 100 d →
  between 0 100 (W.efficiency h s d).
Proof.
  destruct h as [h|], s as [s|], d as [d|]; try done.
  intros [] [] []. rewrite efficiency_Num. split; lra.
Qed.

End Scores.

Section ScoreTheorems.
Local Open Scope Q_scope.

(** C5. The efficiency score is 0.4 x handover_score + 0.3 x
    signal_quality_score + 0.3 x density_score, where handover_score is
    handover_coverage; for fixed signal-quality and density scores it is
    non-decreasing in handover_coverage. *)
Theorem efficiency_weighted_sum_monotone (h1 h2 s d : Q) :
  h1 <= h2 →
  (∃ e1 e2,
      W.efficiency (Num h1) (Num s) (Num d) = Num e1
      ∧ W.efficiency (Num h2) (Num s) (Num d) = Num e2
      ∧ e1 == 0.4 * h1 + 0.3 * s + 0.3 * d
      ∧ e2 == 0.4 * h2 + 0.3 * s + 0.3 * d
      ∧ e1 <= e2)
  ∧ (∀ df a, W.analyze_floor df = Ok (Some a) →
       W.handover_score a = W.handover_coverage a
       ∧ W.efficiency_score a
         = W.efficiency (W.handover_score a) (W.signal_quality_score a)
                        (W.density_score a)).
Proof.
  intros Hh. split.
  - eexists _, _. rewrite !efficiency_Num.
    split_and!; [done|done|lra|lra|lra].
  - intros df a. rewrite analyze_floor_ok.
    destruct (W.select_slu_users df); [done|].
    by intros [= <-].
Qed.

(** C6. Whenever [analyze_floor] computes scores, the coverage, handover,
    signal-quality and density scores and the efficiency score are
    numbers in [[0, 100]]; a mean handover-zone signal of -100 dBm gives
    signal quality 0; without handover zones the signal-quality and
    density scores are 0. *)
Theorem scores_between_0_and_100 (df : list Row) :
  W.select_slu_users df ≠ [] →
  ∃ a, W.analyze_floor df = Ok (Some a)
       ∧ between 0 100 (W.coverage_score a)
       ∧ between 0 100 (W.handover_score a)
       ∧ between 0 100 (W.signal_quality_score a)
       ∧ between 0 100 (W.density_score a)
       ∧ between 0 100 (W.efficiency_score a)
       ∧ W.signal_quality (Num (-100)) = Num 0
       ∧ (W.handover_df a = [] →
            W.signal_quality_score a = Num 0
            ∧ ∃ d0, W.density_score a = Num d0 ∧ d0 == 0).
Proof.
  intros Hne. rewrite analyze_floor_ok.
  destruct (W.select_slu_users df) as [|r slu] eqn:E; [done|].
  set (slu_users := r :: slu) in *.
  exists (analysis_of slu_users). split; [done|].
  pose proof (coverage_score_between slu_users Hne) as Hc.
  pose proof (handover_coverage_between slu_users) as Hh.
  pose proof (density_score_between slu_users) as Hd.
  pose proof (signal_quality_between
                (if decide (0 < length (W.handover_zones (groupby slu_users)))%nat
                 then mean (W.avg_signal <$> W.handover_zones (groupby slu_users))
                 else Num (-100))) as Hs.
  split_and!; try done.
  - exact (efficiency_between _ _ _ Hh Hs Hd).
  - intros Hz. split; [|by apply density_score_no_zones].
    simpl in Hz |- *. rewrite Hz. reflexivity.
Qed.

(** C10. Every record of [handover_zones] has at least two qualifying
    access points and an average signal above -70 dBm; when there is a
    handover zone the density score is at least 10. *)
Theorem handover_zone_invariant (df : list Row) :
  W.select_slu_users df ≠ [] →
  ∃ a, W.analyze_floor df = Ok (Some a)
       ∧ (∀ z, z ∈ W.handover_df a →
            (2 ≤ W.num_aps z)%nat
            ∧ ∃ q, W.avg_signal z = Num q ∧ -70 < q)
       ∧ (W.handover_df a ≠ [] →
            ∃ d, W.density_score a = Num d ∧ 10 <= d).
Proof.
  intros Hne. rewrite analyze_floor_ok.
  destruct (W.select_slu_users df) as [|r slu] eqn:E; [done|].
  eexists. split; [done|]. split.
  - intros z Hz. exact (zone_invariant z _ Hz).
  - intros Hz. destruct (density_score_ge_10 _ Hz) as (d & ? & ? & _).
    by exists d.
Qed.

End ScoreTheorems.

(** ** Per-zone average signal *)
Section ZoneAverage.
Local Open Scope Q_scope.



(** C4. The claim holds for [create_handover_scatter] and fails for
    [analyze_floor].  On [survey_example] both find the single handover
    zone (0, 0), where the signals are -40, -55 and -90: the chart records
    -185/3, the mean over all the measurements at the location, and the
    report records -47.5, the mean of the two signals above -70 dBm. *)
Theorem analyze_floor_avg_signal_strong_only :
  ∃ a z s,
    W.analyze_floor survey_example = Ok (Some a)
    ∧ W.handover_df a = [z]
    ∧ (V.scatter_loop (groupby (W.select_slu_users survey_example))).1 = [s]
    ∧ (W.x z, W.y z) = (Q2Qc 0, Q2Qc 0)
    ∧ (V.x s, V.y s) = (Q2Qc 0, Q2Qc 0)
    ∧ same_value (location_mean survey_example (Q2Qc 0) (Q2Qc 0))
                 (Num (-185 / 3))
    ∧ same_value (V.signal s) (Num (-185 / 3))
    ∧ same_value (W.avg_signal z) (Num (-47.5)).
Proof.
  eexists (analysis_of survey_example), _, _.
  split; [by rewrite analyze_floor_ok|].
  split; [by vm_compute|]. split; [by vm_compute|].
  split_and!; by vm_compute.
Qed.

End ZoneAverage.

(** ** Match percentage *)
Section Match.
Local Open Scope Q_scope.

Lemma py_min_of_Z a b : py_min (of_Z a) (of_Z b) = of_Z (Z.min a b).
Proof.
  unfold py_min, of_Z.
  destruct (flt (Num (inject_Z b)) (Num (inject_Z a))) eqn:E.
  - apply flt_Num in E. rewrite <- Zlt_Qlt in E. by rewrite Z.min_r by lia.
  - apply flt_Num_false in E. rewrite <- Zle_Qle in E. by rewrite Z.min_l by lia.
Qed.

Lemma py_max_of_Z a b : py_max (of_Z a) (of_Z b) = of_Z (Z.max a b).
Proof.
  unfold py_max, fgt, of_Z.
  destruct (flt (Num (inject_Z a)) (Num (inject_Z b))) eqn:E.
  - apply flt_Num in E. rewrite <- Zlt_Qlt in E. by rewrite Z.max_r by lia.
  - apply flt_Num_false in E. rewrite <- Zle_Qle in E. by rewrite Z.max_l by lia.
Qed.

Lemma match_pct_min_max a b :
  match_pct a b = percent (of_Z (Z.min a b)) (of_Z (Z.max a b)).
Proof. unfold match_pct. by rewrite py_min_of_Z, py_max_of_Z. Qed.

Lemma match_pct_comm a b : match_pct a b = match_pct b a.
Proof. by rewrite !match_pct_min_max, Z.min_comm, Z.max_comm. Qed.

Lemma inject_Z_eq_0 n : inject_Z n == 0 ↔ n = 0%Z.
Proof. change 0 with (inject_Z 0). by rewrite inject_Z_injective. Qed.

Lemma match_pct_ok a b :
  Z.max a b ≠ 0%Z →
  match_pct a b
  = Ok (Num (inject_Z (Z.min a b) / inject_Z (Z.max a b) * 100)).
Proof.
  intros Hm. rewrite match_pct_min_max. unfold percent, of_Z.
  rewrite truediv_ok; [done|]. by rewrite inject_Z_eq_0.
Qed.

Lemma match_pct_raise a b :
  Z.max a b = 0%Z → match_pct a b = Raise ZeroDivisionError.
Proof.
  intros Hm. rewrite match_pct_min_max, Hm. unfold percent, of_Z, truediv.
  reflexivity.
Qed.

(** C7. For positive counts the match percentage is
    min(a, b) / max(a, b) x 100, the same for [(a, b)] and [(b, a)], and
    lies in (0, 100]. *)
Theorem bssid_match_symmetric_in_range (a b : Z) :
  (0 < a)%Z → (0 < b)%Z →
  ∃ m, match_pct a b = Ok (Num m)
       ∧ match_pct b a = Ok (Num m)
       ∧ m == inject_Z (Z.min a b) / inject_Z (Z.max a b) * 100
       ∧ 0 < m ∧ m <= 100.
Proof.
  intros Ha Hb. eexists. split; [|split].
  - apply match_pct_ok. lia.
  - rewrite match_pct_comm. apply match_pct_ok. lia.
  - split; [reflexivity|].
    assert (0 < inject_Z (Z.min a b)) as Hmin
      by (change 0 with (inject_Z 0); rewrite <- Zlt_Qlt; lia).
    assert (0 < inject_Z (Z.max a b)) as Hmax
      by (change 0 with (inject_Z 0); rewrite <- Zlt_Qlt; lia).
    assert (inject_Z (Z.min a b) <= inject_Z (Z.max a b)) as Hle
      by (rewrite <- Zle_Qle; lia).
    assert (0 < inject_Z (Z.min a b) / inject_Z (Z.max a b)) as H0
      by (apply Qlt_shift_div_l; lra).
    assert (inject_Z (Z.min a b) / inject_Z (Z.max a b) <= 1) as H1
      by (apply Qle_shift_div_r; lra).
    lra.
Qed.

Lemma acrylic_numbers_positive floor acr :
  ValidatePiVsAcrylic.acrylic_numbers !! floor = Some acr →
  (0 < ValidatePiVsAcrylic.bssids acr)%Z
  ∧ (0 < ValidatePiVsAcrylic.networks acr)%Z.
Proof.
  intros H. apply elem_of_list_to_map_2 in H.
  repeat (apply elem_of_cons in H as [[= _ ->]|H]; [simpl; lia|]).
  by apply elem_of_nil in H.
Qed.

Lemma compare_floor_no_raise floor pi_data :
  ∃ r, ValidatePiVsAcrylic.compare_floor floor pi_data = Ok r.
Proof.
  unfold ValidatePiVsAcrylic.compare_floor.
  destruct (ValidatePiVsAcrylic.acrylic_numbers !! floor) as [acr|] eqn:E;
    [|by eexists].
  apply acrylic_numbers_positive in E as [Hb Hn].
  rewrite !match_pct_ok by lia. by eexists.
Qed.

(** C8, as stated, fails: with both counts zero the computation raises
    [ZeroDivisionError]. *)
Lemma match_pct_zero_counts_raise :
  match_pct 0 0 = Raise ZeroDivisionError
  ∧ AnalyzePiSurvey.compare_with_acrylic_numbers [] 0 0 0
    = Raise ZeroDivisionError
  ∧ ¬ ∃ v, match_pct 0 0 = Ok v.
Proof. split_and!; [done|done|]. by intros [v Hv]. Qed.

(** C8 (amended). The match computation has no special case: it raises
    [ZeroDivisionError] exactly when the larger count is zero, that is,
    for counts, when both are zero, and returns min / max x 100
    otherwise; [compare_floor] never raises, its Acrylic counts being
    positive constants. *)
Theorem match_pct_raises_iff_max_zero (a b : Z) :
  (match_pct a b = Raise ZeroDivisionError ↔ Z.max a b = 0%Z)
  ∧ ((∃ m, match_pct a b = Ok (Num m)
           ∧ m == inject_Z (Z.min a b) / inject_Z (Z.max a b) * 100)
     ↔ Z.max a b ≠ 0%Z)
  ∧ (∀ n m : nat, match_pct (Z.of_nat n) (Z.of_nat m)
                  = Raise ZeroDivisionError ↔ n = 0%nat ∧ m = 0%nat)
  ∧ (∀ floor pi_data,
       ∃ r, ValidatePiVsAcrylic.compare_floor floor pi_data = Ok r).
Proof.
  assert (∀ a b, match_pct a b = Raise ZeroDivisionError ↔ Z.max a b = 0%Z)
    as Hiff.
  { intros a' b'. split; [|apply match_pct_raise].
    intros Hr. destruct (decide (Z.max a' b' = 0%Z)) as [|Hm]; [done|].
    by rewrite match_pct_ok in Hr. }
  split_and!.
  - apply Hiff.
  - split.
    + intros (m & Hm & _) Hz. apply Hiff in Hz. by rewrite Hz in Hm.
    + intros Hm. eexists. split; [by apply match_pct_ok|reflexivity].
  - intros n m. rewrite Hiff. lia.
  - apply compare_floor_no_raise.
Qed.

End Match.

(** ** Floors without data *)
Section NoData.
Local Open Scope Q_scope.

(** A frame can have rows on the network and yet no location. *)
Example unlocated_example_no_location :
  ∃ a, W.analyze_floor unlocated_example = Ok (Some a)
       ∧ W.total a = 1%nat ∧ W.total_locations a = 0%nat.
Proof. eexists. split; [by rewrite analyze_floor_ok|]. by vm_compute. Qed.



End NoData.

(** ** Instances on [survey_example] *)
Section Witnesses.
Local Open Scope Q_scope.

Lemma survey_example_selected :
  W.select_slu_users survey_example = survey_example.
Proof. reflexivity. Qed.

(** The band counts of [survey_example]: all four signals are present. *)
Lemma band_counts_sum_to_total_witness :
  W.select_slu_users survey_example ≠ []
  ∧ Forall (λ r, signal_strength r ≠ NaN) (W.select_slu_users survey_example)
  ∧ ∃ a, W.analyze_floor survey_example = Ok (Some a)
         ∧ W.total a = length (W.select_slu_users survey_example)
         ∧ (W.excellent a + W.good a + W.fair a + W.poor a = W.total a)%nat
         ∧ (0 ≤ W.excellent a ∧ 0 ≤ W.good a
            ∧ 0 ≤ W.fair a ∧ 0 ≤ W.poor a)%nat.
Proof.
  assert (W.select_slu_users survey_example ≠ []) as Hne
    by (rewrite survey_example_selected; discriminate).
  assert (Forall (λ r, signal_strength r ≠ NaN)
                 (W.select_slu_users survey_example)) as Hv
    by (rewrite survey_example_selected; repeat constructor; discriminate).
  split; [exact Hne|]. split; [exact Hv|].
  exact (band_counts_sum_to_total survey_example Hne Hv).
Defined.

(** Handover coverage 40 against 50, with signal quality 100 and density 10. *)
Lemma efficiency_weighted_sum_monotone_witness :
  40 <= 50
  ∧ ∃ e1 e2,
      W.efficiency (Num 40) (Num 100) (Num 10) = Num e1
      ∧ W.efficiency (Num 50) (Num 100) (Num 10) = Num e2
      ∧ e1 == 0.4 * 40 + 0.3 * 100 + 0.3 * 10
      ∧ e2 == 0.4 * 50 + 0.3 * 100 + 0.3 * 10
      ∧ e1 <= e2.
Proof.
  assert (40 <= 50) as H by (unfold Qle; simpl; lia).
  split; [exact H|].
  exact (proj1 (efficiency_weighted_sum_monotone 40 50 100 10 H)).
Defined.

(** The scores of [survey_example]. *)
Lemma scores_between_0_and_100_witness :
  W.select_slu_users survey_example ≠ []
  ∧ ∃ a, W.analyze_floor survey_example = Ok (Some a)
         ∧ between 0 100 (W.coverage_score a)
         ∧ between 0 100 (W.handover_score a)
         ∧ between 0 100 (W.signal_quality_score a)
         ∧ between 0 100 (W.density_score a)
         ∧ between 0 100 (W.efficiency_score a)
         ∧ W.signal_quality (Num (-100)) = Num 0
         ∧ (W.handover_df a = [] →
              W.signal_quality_score a = Num 0
              ∧ ∃ d0, W.density_score a = Num d0 ∧ d0 == 0).
Proof.
  assert (W.select_slu_users survey_example ≠ []) as Hne
    by (rewrite survey_example_selected; discriminate).
  split; [exact Hne|].
  exact (scores_between_0_and_100 survey_example Hne).
Defined.

(** The handover zones of [survey_example]. *)
Lemma handover_zone_invariant_witness :
  W.select_slu_users survey_example ≠ []
  ∧ ∃ a, W.analyze_floor survey_example = Ok (Some a)
         ∧ (∀ z, z ∈ W.handover_df a →
              (2 ≤ W.num_aps z)%nat
              ∧ ∃ q, W.avg_signal z = Num q ∧ -70 < q)
         ∧ (W.handover_df a ≠ [] →
              ∃ d, W.density_score a = Num d ∧ 10 <= d).
Proof.
  assert (W.select_slu_users survey_example ≠ []) as Hne
    by (rewrite survey_example_selected; discriminate).
  split; [exact Hne|].
  exact (handover_zone_invariant survey_example Hne).
Defined.

(** Three access points against four. *)
Lemma bssid_match_symmetric_in_range_witness :
  (0 < 3)%Z ∧ (0 < 4)%Z
  ∧ ∃ m, match_pct 3 4 = Ok (Num m)
         ∧ match_pct 4 3 = Ok (Num m)
         ∧ m == inject_Z (Z.min 3 4) / inject_Z (Z.max 3 4) * 100
         ∧ 0 < m ∧ m <= 100.
Proof.
  assert (0 < 3)%Z as H3 by lia. assert (0 < 4)%Z as H4 by lia.
  split; [exact H3|]. split; [exact H4|].
  exact (bssid_match_symmetric_in_range 3 4 H3 H4).
Defined.

(** The worked example of the specification: (0, 0) is a handover zone
    with two qualifying access points, (1, 0) is not, and the handover
    coverage is 50. *)
Example survey_example_coverage :
  ∃ a z, W.analyze_floor survey_example = Ok (Some a)
         ∧ W.handover_df a = [z]
         ∧ (W.x z, W.y z) = (Q2Qc 0, Q2Qc 0)
         ∧ W.num_aps z = 2%nat
         ∧ W.total_locations a = 2%nat
         ∧ same_value (W.handover_coverage a) (Num 50)
         ∧ same_value (W.efficiency_score a) (Num 53).
Proof.
  eexists _, _. split; [by rewrite analyze_floor_ok|].
  split; [by vm_compute|]. by vm_compute.
Qed.

End Witnesses.

(** * Properties of the other functions *)

(** ** Sums *)
Section Sums.
Local Open Scope Q_scope.

Lemma sum_nat_from (l : list nat) n : foldl Nat.add n l = (n + sum_nat l)%nat.
Proof.
  unfold sum_nat. revert n. induction l as [|a l IH]; intros n; simpl.
  - lia.
  - rewrite (IH (n + a)%nat), (IH a). lia.
Qed.

Lemma sum_nat_cons a l : sum_nat (a :: l) = (a + sum_nat l)%nat.
Proof. unfold sum_nat at 1. simpl. by rewrite sum_nat_from. Qed.

Lemma sum_nat_lengths {A} (ls : list (list A)) :
  sum_nat (length <$> ls) = length (mjoin ls).
Proof.
  induction ls as [|l ls IH]; [done|].
  rewrite fmap_cons, sum_nat_cons, IH. simpl. by rewrite length_app.
Qed.

(** A left fold of [+] over numbers in [[lo, hi]] stays a number, within
    the bounds scaled by the number of terms. *)
Lemma py_sum_from lo hi (l : list pyfloat) a (n : nat) :
  Forall (between lo hi) l →
  lo * inject_Z (Z.of_nat n) <= a <= hi * inject_Z (Z.of_nat n) →
  ∃ q, foldl fadd (Num a) l = Num q
       ∧ lo * inject_Z (Z.of_nat (n + length l)) <= q
         <= hi * inject_Z (Z.of_nat (n + length l)).
Proof.
  intros Hl. revert a n. induction Hl as [|v l Hv _ IH]; intros a n Ha.
  - exists a. split; [done|]. by rewrite Nat.add_0_r.
  - destruct v as [p|]; [|done]. simpl in Hv. simpl foldl.
    destruct (IH (a + p) (S n)) as (q & Hq & Hb).
    { rewrite inject_S, !Qmult_plus_distr_r. lra. }
    exists q. split; [done|].
    replace (n + length (Num p :: l))%nat with (S n + length l)%nat
      by (simpl; lia).
    done.
Qed.

Lemma py_sum_between lo hi (l : list pyfloat) :
  Forall (between lo hi) l →
  ∃ q, py_sum l = Num q
       ∧ lo * inject_Z (Z.of_nat (length l)) <= q
         <= hi * inject_Z (Z.of_nat (length l)).
Proof.
  intros Hl. apply (py_sum_from lo hi l 0 0 Hl).
  change (inject_Z (Z.of_nat 0)) with 0. lra.
Qed.

(** The average of a non-empty list of numbers in [[lo, hi]], as [main]
    computes it, is a number in [[lo, hi]]. *)
Lemma py_average_between lo hi (l : list pyfloat) :
  Forall (between lo hi) l → l ≠ [] →
  ∃ q, truediv (py_sum l) (of_nat (length l)) = Ok (Num q)
       ∧ lo <= q <= hi.
Proof.
  intros Hl Hne. destruct (py_sum_between lo hi l Hl) as (s & -> & Hs).
  assert (0 < inject_Z (Z.of_nat (length l))) as Hn
    by (apply of_nat_pos; destruct l; [done | simpl; lia]).
  unfold of_nat. rewrite truediv_ok by lra.
  eexists. split; [done|]. split.
  - apply Qle_shift_div_l; lra.
  - apply Qle_shift_div_r; lra.
Qed.

End Sums.

(** ** The report of [analyze_floor] *)
Section Report.
Local Open Scope Q_scope.

(** A count out of [n], as a percentage: between 0 and 100, 0 only for
    no row and 100 only for all the rows. *)
Lemma pct_ends (c n : nat) :
  (c ≤ n)%nat → (0 < n)%nat →
  let q := inject_Z (Z.of_nat c) / inject_Z (Z.of_nat n) * 100 in
  0 <= q <= 100 ∧ (q == 0 ↔ c = 0%nat) ∧ (q == 100 ↔ c = n).
Proof.
  intros Hc Hn q. pose proof (of_nat_pos n Hn) as HN.
  assert (q * inject_Z (Z.of_nat n) == inject_Z (Z.of_nat c) * 100) as Hq
    by (unfold q; field; lra).
  split; [by apply ratio_between|]. split; split.
  - intros H0. rewrite H0 in Hq.
    assert (inject_Z (Z.of_nat c) == 0) as H by lra.
    apply (proj1 (inject_Z_eq_0 _)) in H. lia.
  - intros ->. unfold q. change (inject_Z (Z.of_nat 0)) with 0. field. lra.
  - intros H100. rewrite H100 in Hq.
    assert (inject_Z (Z.of_nat c) == inject_Z (Z.of_nat n)) as H by lra.
    apply (proj1 (inject_Z_injective _ _)) in H. by apply Nat2Z.inj in H.
  - intros ->. unfold q. field. lra.
Qed.


(** The bars of [create_coverage_quality] are the counts and percentages
    of the report. *)
Lemma coverage_quality_ok df :
  Charts.coverage_quality df =
  match W.select_slu_users df with
  | [] => Ok None
  | slu =>
      let a := analysis_of slu in
      Ok (Some [(W.excellent a, W.pct_excellent a);
                (W.good a, W.pct_good a);
                (W.fair a, W.pct_fair a);
                (W.poor a, W.pct_poor a)])
  end.
Proof.
  unfold Charts.coverage_quality.
  destruct (W.select_slu_users df) as [|r slu]; [done|].
  set (rows := r :: slu).
  assert (0 < length rows)%nat as Hn by (simpl; lia).
  rewrite !(decide_True (P := (0 < length rows)%nat)) by done.
  by rewrite !percent_ok by done.
Qed.

(** X2. For a floor with rows on the network, the four bars
    [create_coverage_quality] draws carry the band counts and the
    percentages of [analyze_floor] for the same frame, in the order
    Excellent, Good, Fair, Poor; computing them raises nothing. *)
Theorem coverage_quality_matches_report (df : list Row) :
  W.select_slu_users df ≠ [] →
  ∃ a, W.analyze_floor df = Ok (Some a)
       ∧ Charts.coverage_quality df
         = Ok (Some [(W.excellent a, W.pct_excellent a);
                     (W.good a, W.pct_good a);
                     (W.fair a, W.pct_fair a);
                     (W.poor a, W.pct_poor a)]).
Proof.
  intros Hne. rewrite analyze_floor_ok, coverage_quality_ok.
  destruct (W.select_slu_users df); [done|]. by eexists.
Qed.

End Report.

(** ** The building-wide summary of [main] *)
Section MainSummary.
Local Open Scope Q_scope.

Lemma bind_Ok {A B} (a : A) (f : A → result B) : (Ok a ≫= f) = f a.
Proof. reflexivity. Qed.

Lemma efficiency_score_between slu_users :
  between 0 100 (W.efficiency_score (analysis_of slu_users)).
Proof.
  exact (efficiency_between _ _ _
           (handover_coverage_between slu_users)
           (signal_quality_between _)
           (density_score_between slu_users)).
Qed.

Lemma collect_results_ok floor_dirs :
  AnalyzeWifiDataMain.collect_results floor_dirs
  = Ok (analysis_of <$> floors_with_data floor_dirs).
Proof.
  unfold floors_with_data.
  induction floor_dirs as [|[df|] rest IH]; [done| |].
  - change (omap id (Some df :: rest)) with (df :: omap id rest).
    rewrite fmap_cons, filter_cons.
    cbn [AnalyzeWifiDataMain.collect_results
         AnalyzeWifiDataMain.analyze_floor_dir].
    rewrite analyze_floor_ok, IH.
    destruct (W.select_slu_users df) as [|r slu] eqn:E.
    + by rewrite decide_False by (intros H; by apply H).
    + by rewrite decide_True by done.
  - change (omap id (None :: rest)) with (omap id rest).
    cbn [AnalyzeWifiDataMain.collect_results
         AnalyzeWifiDataMain.analyze_floor_dir].
    by rewrite IH.
Qed.

(** X3. [main] raises nothing.  It prints no summary exactly when no floor
    directory has rows on the network; otherwise the summary counts the
    floors that have such rows (directories without a measurements file
    or without rows on the network are left out of the averages), the
    total is the number of rows on the network over those floors, and the
    two averages are numbers in [[0, 100]]. *)
Theorem main_summary (floor_dirs : list (option (list Row))) :
  ∃ s, AnalyzeWifiDataMain.main floor_dirs = Ok s
       ∧ (s = None ↔ floors_with_data floor_dirs = [])
       ∧ ∀ sm, s = Some sm →
           AnalyzeWifiDataMain.floors_analyzed sm
           = length (floors_with_data floor_dirs)
           ∧ AnalyzeWifiDataMain.total_measurements sm
             = length (mjoin (floors_with_data floor_dirs))
           ∧ between 0 100 (AnalyzeWifiDataMain.avg_efficiency sm)
           ∧ between 0 100 (AnalyzeWifiDataMain.avg_handover_coverage sm).
Proof.
  unfold AnalyzeWifiDataMain.main. rewrite collect_results_ok, bind_Ok.
  assert (Forall (between 0 100)
            (W.efficiency_score <$> (analysis_of <$> floors_with_data floor_dirs)))
    as Heff.
  { apply Forall_fmap, Forall_fmap, Forall_forall. intros f _.
    apply efficiency_score_between. }
  assert (Forall (between 0 100)
            (W.handover_coverage <$> (analysis_of <$> floors_with_data floor_dirs)))
    as Hcov.
  { apply Forall_fmap, Forall_fmap, Forall_forall. intros f _.
    apply handover_coverage_between. }
  assert (sum_nat (W.total <$> (analysis_of <$> floors_with_data floor_dirs))
          = length (mjoin (floors_with_data floor_dirs))) as Htot.
  { rewrite <- sum_nat_lengths, <- list_fmap_compose. done. }
  assert (length (analysis_of <$> floors_with_data floor_dirs)
          = length (floors_with_data floor_dirs)) as Hlen
    by apply length_fmap.
  assert (analysis_of <$> floors_with_data floor_dirs = []
          ↔ floors_with_data floor_dirs = []) as Hnil.
  { split; [apply fmap_nil_inv | by intros ->]. }
  revert Heff Hcov Htot Hlen Hnil.
  generalize (analysis_of <$> floors_with_data floor_dirs) as results.
  intros [|a rs] Heff Hcov Htot Hlen Hnil.
  - exists None. split; [done|]. split; [by rewrite <- Hnil|]. by intros sm [=].
  - destruct (py_average_between 0 100 _ Heff) as (e & He & Heb); [done|].
    destruct (py_average_between 0 100 _ Hcov) as (h & Hh & Hhb); [done|].
    rewrite !length_fmap in He, Hh.
    rewrite He, bind_Ok, Hh, bind_Ok.
    eexists. split; [reflexivity|]. split.
    + split; [done|]. intros Hz. apply Hnil in Hz. done.
    + intros sm [= <-]. by split_and!.
Qed.

End MainSummary.

(** ** The charts against the report *)
Section ChartsAgainstReport.
Local Open Scope Q_scope.

Lemma handover_count_from locs n :
  foldl (λ count '(_, group),
           let strong_aps :=
             filter (λ r, fgt (signal_strength r) (Num (-70))) group in
           if decide (2 ≤ length (unique (bssid <$> strong_aps)))%nat
           then (count + 1)%nat else count)
        n locs
  = (n + length (W.handover_zones locs))%nat.
Proof.
  revert n. induction locs as [|[k g] locs IH]; intros n.
  - simpl. lia.
  - cbn [foldl W.handover_zones]. rewrite IH.
    unfold W.strong_aps, W.handover_threshold.
    case_decide; simpl; lia.
Qed.

Lemma handover_count_zones locs :
  Charts.handover_count locs = length (W.handover_zones locs).
Proof. unfold Charts.handover_count. by rewrite handover_count_from. Qed.

(** X4. For a floor with rows on the network, the entry that
    [create_building_comparison] computes is computed without an exception
    and holds the same number of locations, the same handover coverage (a
    number in [[0, 100]]) and the same mean signal as [analyze_floor]
    reports for the frame. *)
Theorem building_comparison_matches_report (df : list Row) :
  W.select_slu_users df ≠ [] →
  ∃ e a, Charts.building_comparison df = Ok (Some e)
         ∧ W.analyze_floor df = Ok (Some a)
         ∧ Charts.locations e = W.total_locations a
         ∧ Charts.handover_coverage e = W.handover_coverage a
         ∧ Charts.avg_signal e = W.avg_signal_all a
         ∧ between 0 100 (Charts.handover_coverage e).
Proof.
  intros Hne. rewrite analyze_floor_ok. unfold Charts.building_comparison.
  destruct (W.select_slu_users df) as [|r slu] eqn:E; [done|].
  set (rows := r :: slu) in *.
  rewrite (decide_True (P := (0 < length rows)%nat)) by (simpl; lia).
  rewrite handover_count_zones.
  pose proof (handover_coverage_between rows) as Hb.
  simpl in Hb.
  destruct (decide (0 < length (groupby rows))%nat) as [Hl|Hl].
  - rewrite percent_ok by done. eexists _, _.
    split; [reflexivity|]. split; [reflexivity|]. simpl.
    rewrite decide_True by done.
    split_and!; [done|reflexivity|done|apply Hb|apply Hb].
  - eexists _, _.
    split; [reflexivity|]. split; [reflexivity|]. simpl.
    rewrite decide_False by done.
    split_and!; [done|reflexivity|done|apply Hb|apply Hb].
Qed.

Lemma scatter_loop_spec locs :
  (length (V.scatter_loop locs).1 + length (V.scatter_loop locs).2
   = length locs)%nat
  ∧ ((λ z, (V.x z, V.y z)) <$> (V.scatter_loop locs).1)
      ++ ((λ z, (V.nx z, V.ny z)) <$> (V.scatter_loop locs).2)
    ≡ₚ fst <$> locs
  ∧ (λ z, (V.x z, V.y z, V.aps z)) <$> (V.scatter_loop locs).1
    = (λ z, (W.x z, W.y z, W.num_aps z)) <$> W.handover_zones locs.
Proof.
  induction locs as [|[[kx ky] g] locs (IHl & IHp & IHz)]; [done|].
  cbn [V.scatter_loop W.handover_zones].
  destruct (V.scatter_loop locs) as [hz nh].
  unfold W.strong_aps, W.handover_threshold.
  cbn [fst snd] in *.
  case_decide;
    cbn [fst snd length fmap list_fmap app V.x V.y V.aps V.nx V.ny
         W.x W.y W.num_aps].
  - split_and!; [lia| |by f_equal].
    by constructor.
  - split_and!; [lia| |done].
    rewrite <- Permutation_middle. by constructor.
Qed.

(** X5. [create_handover_scatter] puts every surveyed location of a floor
    in exactly one of its two lists: together the lists hold each group key
    once, and their lengths add up to the number of locations; its handover
    list names the same locations with the same AP counts, in the same
    order, as the [handover_zones] of [analyze_floor]. *)
Theorem scatter_partitions_locations (slu_users : list Row) :
  let lists := V.scatter_loop (groupby slu_users) in
  (length lists.1 + length lists.2 = length (groupby slu_users))%nat
  ∧ ((λ z, (V.x z, V.y z)) <$> lists.1)
      ++ ((λ z, (V.nx z, V.ny z)) <$> lists.2)
    ≡ₚ fst <$> groupby slu_users
  ∧ NoDup (((λ z, (V.x z, V.y z)) <$> lists.1)
           ++ ((λ z, (V.nx z, V.ny z)) <$> lists.2))
  ∧ (λ z, (V.x z, V.y z, V.aps z)) <$> lists.1
    = (λ z, (W.x z, W.y z, W.num_aps z))
        <$> W.handover_zones (groupby slu_users).
Proof.
  intros lists. unfold lists.
  destruct (scatter_loop_spec (groupby slu_users)) as (Hl & Hp & Hz).
  split_and!; try done.
  rewrite Hp. apply groupby_keys_NoDup.
Qed.

End ChartsAgainstReport.

(** ** Building-wide counts *)
Section BuildingWide.
Local Open Scope Q_scope.

Lemma count_signal_app {R} (col : R → pyfloat) p (l1 l2 : list R) :
  count_signal col p (l1 ++ l2)
  = (count_signal col p l1 + count_signal col p l2)%nat.
Proof. unfold count_signal. by rewrite filter_app, length_app. Qed.

Lemma combined_slu_cons name df floors_data :
  Charts.combined_slu ((name, df) :: floors_data)
  = W.select_slu_users df ++ Charts.combined_slu floors_data.
Proof.
  unfold Charts.combined_slu. rewrite fmap_cons, filter_cons.
  destruct (W.select_slu_users df) as [|r slu] eqn:E.
  - by rewrite decide_False by (simpl; lia).
  - by rewrite decide_True by (simpl; lia).
Qed.

Lemma count_signal_combined p floors_data :
  count_signal signal_strength p (Charts.combined_slu floors_data)
  = building_count p floors_data.
Proof.
  unfold building_count.
  induction floors_data as [|[name df] fd IH]; [done|].
  by rewrite combined_slu_cons, count_signal_app, fmap_cons, sum_nat_cons, IH.
Qed.

(** No row of a frame is in a band exactly when no row has a signal. *)
Lemma count_signal_none {R} (col : R → pyfloat) (rows : list R) :
  (count_signal col is_excellent rows + count_signal col is_good rows
   + count_signal col is_fair rows + count_signal col is_poor rows
   = 0)%nat
  ↔ Forall (λ r, col r = NaN) rows.
Proof.
  rewrite count_signal_sum. unfold count_signal.
  induction rows as [|r rows IH]; [by split|].
  rewrite filter_cons, Forall_cons. destruct (col r) as [q|] eqn:E.
  - rewrite decide_True by done. split; [simpl; lia|by intros [[=] _]].
  - rewrite decide_False by (simpl; auto). rewrite IH. tauto.
Qed.


Lemma nunique_size `{Countable A} (s : list (option A)) :
  nunique s = size (list_to_set (omap id s) : gset A).
Proof. unfold nunique. apply length_unique. Qed.

Lemma nunique_app_le `{Countable A} (s1 s2 : list (option A)) :
  (nunique (s1 ++ s2) ≤ nunique s1 + nunique s2)%nat.
Proof.
  rewrite !nunique_size, omap_app, list_to_set_app_L, size_union_alt.
  apply Nat.add_le_mono_l, subseteq_size. by apply subseteq_difference_l.
Qed.

Lemma nunique_app_ge `{Countable A} (s1 s2 : list (option A)) :
  (nunique s1 ≤ nunique (s1 ++ s2))%nat.
Proof.
  rewrite !nunique_size, omap_app, list_to_set_app_L.
  apply subseteq_size. set_solver.
Qed.

Lemma floor_stats_totals floors_data :
  (nunique (bssid <$> all_rows floors_data)
   ≤ sum_nat (Charts.BSSIDs <$> Charts.floor_stats floors_data))%nat
  ∧ (nunique (ssid <$> all_rows floors_data)
     ≤ sum_nat (Charts.Networks <$> Charts.floor_stats floors_data))%nat
  ∧ sum_nat (Charts.Measurements <$> Charts.floor_stats floors_data)
    = length (all_rows floors_data).
Proof.
  unfold all_rows, Charts.floor_stats.
  induction floors_data as [|[name df] fd (IHb & IHn & IHm)]; [done|].
  rewrite !fmap_cons, !sum_nat_cons. cbn [snd mjoin list_join].
  rewrite !fmap_app, length_app.
  cbn [Charts.BSSIDs Charts.Networks Charts.Measurements].
  split_and!.
  - etrans; [apply nunique_app_le|]. by apply Nat.add_le_mono_l.
  - etrans; [apply nunique_app_le|]. by apply Nat.add_le_mono_l.
  - by f_equal.
Qed.

(** X7. In the summary box of [create_network_infrastructure] the total of
    measurements is the number of rows of all floors, while "Total BSSIDs"
    and "Total Networks" are sums of per-floor distinct counts: they are at
    least the number of distinct values over the building, and each floor's
    own count is at most that number. *)
Theorem building_totals_bound_distinct (floors_data : Charts.FloorsData) :
  let '(total_bssids, total_networks, total_measurements) :=
    Charts.building_totals floors_data in
  (nunique (bssid <$> all_rows floors_data) ≤ total_bssids)%nat
  ∧ (nunique (ssid <$> all_rows floors_data) ≤ total_networks)%nat
  ∧ total_measurements = length (all_rows floors_data)
  ∧ ∀ name df, (name, df) ∈ floors_data →
      (nunique (bssid <$> df) ≤ nunique (bssid <$> all_rows floors_data))%nat.
Proof.
  unfold Charts.building_totals.
  destruct (floor_stats_totals floors_data) as (Hb & Hn & Hm).
  split_and!; try done.
  intros name df Hin. unfold all_rows.
  apply list_elem_of_split in Hin as (l1 & l2 & ->).
  rewrite fmap_app, fmap_cons, join_app. cbn [snd mjoin list_join].
  rewrite !fmap_app, !nunique_size, !omap_app, !list_to_set_app_L.
  apply subseteq_size. set_solver.
Qed.

(** Two floors that hear the same access point count it twice. *)
Example building_totals_double_count :
  let floors_data :=
    [("ground_floor"%string, [at_xy 0 0 "A" (-40)]);
     ("top_floor"%string, [at_xy 0 0 "A" (-60)])] in
  (Charts.building_totals floors_data).1.1 = 2%nat
  ∧ nunique (bssid <$> all_rows floors_data) = 1%nat.
Proof. by vm_compute. Qed.

End BuildingWide.

(** ** Substrings *)
Section Substrings.

Lemma append_nil (b : string) : EmptyString +:+ b = b.
Proof. reflexivity. Qed.

Lemma append_cons x (a b : string) : String x a +:+ b = String x (a +:+ b).
Proof. reflexivity. Qed.

Lemma append_assoc (a b c : string) : (a +:+ b) +:+ c = a +:+ (b +:+ c).
Proof.
  induction a as [|x a IH]; [done|]. rewrite !append_cons. by f_equal.
Qed.

Lemma prefix_iff (pat s : string) :
  String.prefix pat s = true ↔ ∃ b, s = pat +:+ b.
Proof.
  revert s. induction pat as [|x pat IH]; intros s.
  - split; [intros _; exists s; by rewrite append_nil | intros _; by destruct s].
  - destruct s as [|y s].
    { split; [done|]. intros [b Hb]. by rewrite append_cons in Hb. }
    cbn [String.prefix].
    destruct (Ascii.ascii_dec x y) as [->|Hne].
    + rewrite IH. split; intros [b Hb]; exists b.
      * by rewrite append_cons, Hb.
      * rewrite append_cons in Hb. by injection Hb.
    + split; [done|]. intros [b Hb]. rewrite append_cons in Hb.
      injection Hb as -> _. done.
Qed.

(** [is_substring pat s] holds exactly when [pat] occurs in [s]. *)
Lemma is_substring_iff (pat s : string) :
  is_substring pat s = true ↔ ∃ a b, s = a +:+ (pat +:+ b).
Proof.
  induction s as [|y s IH]; cbn [is_substring].
  - rewrite orb_false_r, prefix_iff. split.
    + intros [b Hb]. exists EmptyString, b. by rewrite append_nil.
    + intros (a & b & Hab). destruct a as [|x a].
      * exists b. by rewrite append_nil in Hab.
      * by rewrite append_cons in Hab.
  - rewrite orb_true_iff, prefix_iff, IH. split.
    + intros [[b Hb]|(a & b & Hab)].
      * exists EmptyString, b. by rewrite append_nil.
      * exists (String y a), b. by rewrite append_cons, Hab.
    + intros (a & b & Hab). destruct a as [|x a].
      * left. exists b. by rewrite append_nil in Hab.
      * right. exists a, b. rewrite append_cons in Hab. by injection Hab.
Qed.

Lemma is_substring_trans (p q s : string) :
  is_substring p q = true → is_substring q s = true →
  is_substring p s = true.
Proof.
  rewrite !is_substring_iff. intros (a1 & b1 & ->) (a2 & b2 & ->).
  exists (a2 +:+ a1), (b1 +:+ b2). by rewrite !append_assoc.
Qed.

(** A network name that contains "SLU-users" contains "SLU" and "users",
    whatever the case of its letters. *)
Lemma str_contains_slu_users v :
  str_contains "SLU-users" v = true →
  str_contains "SLU" v = true ∧ str_contains "users" v = true.
Proof.
  destruct v as [s|]; [|done]. unfold str_contains. intros H.
  split; (eapply is_substring_trans; [|exact H]); reflexivity.
Qed.

End Substrings.

(** ** The Pi survey frames *)
Section PiFrames.
Local Open Scope Q_scope.

Lemma pi_slu_filter_slu_users data :
  PiSelection.pi_slu data
  = filter (λ r, str_contains "SLU-users" (essid r))
           (PiSelection.slu_users data).
Proof.
  unfold PiSelection.pi_slu, PiSelection.slu_users.
  rewrite list_filter_filter, list_filter_filter.
  apply list_filter_iff. intros r. split; [|tauto].
  intros H. pose proof H as H'.
  apply Is_true_true, str_contains_slu_users in H' as [H1 H2].
  split_and!; [done|by apply Is_true_true..].
Qed.

(** X8. Every row that [compare_floor] and the validation dashboard select
    with the single pattern "SLU-users" is in the frame that
    [analyze_slu_network] selects with "SLU" and then "users", in the same
    order; the converse fails, for instance for a network named
    "SLU-guest-users". *)
Theorem pi_slu_within_slu_users (data : list PiRow) :
  PiSelection.pi_slu data `sublist_of` PiSelection.slu_users data
  ∧ (∀ r, r ∈ PiSelection.pi_slu data → r ∈ PiSelection.slu_users data)
  ∧ (length (PiSelection.pi_slu data)
     ≤ length (PiSelection.slu_users data))%nat
  ∧ ∃ r, PiSelection.slu_users [r] = [r] ∧ PiSelection.pi_slu [r] = [].
Proof.
  assert (PiSelection.pi_slu data `sublist_of` PiSelection.slu_users data)
    as Hsub.
  { rewrite pi_slu_filter_slu_users. apply sublist_filter. }
  split_and!.
  - done.
  - intros r Hr. by apply (sublist_subseteq _ _ Hsub).
  - by apply sublist_length.
  - by exists {| essid := Some "SLU-guest-users"; pi_bssid := None;
                 signal_dbm := NaN |}.
Qed.

(** X9. [analyze_slu_network] raises nothing; it computes band counts
    exactly when its frame is not empty; the total is the size of the
    frame, the four counts add up to at most the total, and to the total
    when every row of the frame has a signal value. *)
Theorem analyze_slu_network_counts (data : list PiRow) :
  ∃ r, AnalyzePiSurvey.analyze_slu_network data = Ok r
       ∧ (r = None ↔ PiSelection.slu_users data = [])
       ∧ ∀ b, r = Some b →
           AnalyzePiSurvey.total b = length (PiSelection.slu_users data)
           ∧ (AnalyzePiSurvey.excellent b + AnalyzePiSurvey.good b
              + AnalyzePiSurvey.fair b + AnalyzePiSurvey.poor b
              ≤ AnalyzePiSurvey.total b)%nat
           ∧ (Forall (λ r, signal_dbm r ≠ NaN) (PiSelection.slu_users data) →
              (AnalyzePiSurvey.excellent b + AnalyzePiSurvey.good b
               + AnalyzePiSurvey.fair b + AnalyzePiSurvey.poor b
               = AnalyzePiSurvey.total b)%nat).
Proof.
  unfold AnalyzePiSurvey.analyze_slu_network.
  fold (PiSelection.slu_users data).
  destruct (decide (0 < length (PiSelection.slu_users data))%nat) as [Hn|Hn].
  - rewrite !percent_ok by done. eexists. split; [reflexivity|]. split.
    + split; [done|]. intros E. rewrite E in Hn. simpl in Hn. lia.
    + intros b [= <-]. simpl. split_and!; [done| |].
      * apply count_signal_sum_le.
      * apply count_signal_sum_valid.
  - exists None. split; [done|]. split; [|by intros b [=]].
    split; [|done]. intros _.
    destruct (PiSelection.slu_users data); [done | simpl in Hn; lia].
Qed.

End PiFrames.

(** ** Validation *)
Section Validation.
Local Open Scope Q_scope.

Lemma acrylic_numbers_floor f :
  ValidatePiVsAcrylic.acrylic_numbers !! floor_key f = Some (acrylic_of f).
Proof. by destruct f. Qed.

Lemma acrylic_numbers_unknown floor_name :
  ValidatePiVsAcrylic.acrylic_numbers !! floor_name = None
  ↔ floor_name ∉ floor_key <$> floors.
Proof.
  unfold ValidatePiVsAcrylic.acrylic_numbers.
  by rewrite <- not_elem_of_list_to_map.
Qed.

Lemma acrylic_of_positive f :
  (0 < ValidatePiVsAcrylic.bssids (acrylic_of f))%Z
  ∧ (0 < ValidatePiVsAcrylic.networks (acrylic_of f))%Z.
Proof. destruct f; simpl; lia. Qed.

Lemma match_pct_value a b :
  Z.max a b ≠ 0%Z → match_pct a b = Ok (match_value a b).
Proof. apply match_pct_ok. Qed.

(** The match of a count against a positive count. *)
Lemma match_value_between (a b : Z) :
  (0 <= a)%Z → (0 < b)%Z →
  ∃ m, match_value a b = Num m ∧ 0 <= m <= 100 ∧ (m == 0 ↔ a = 0%Z).
Proof.
  intros Ha Hb. eexists. split; [reflexivity|].
  assert (0 <= inject_Z (Z.min a b)) as Hmin
    by (change 0 with (inject_Z 0); rewrite <- Zle_Qle; lia).
  assert (0 < inject_Z (Z.max a b)) as Hmax
    by (change 0 with (inject_Z 0); rewrite <- Zlt_Qlt; lia).
  assert (inject_Z (Z.min a b) <= inject_Z (Z.max a b)) as Hle
    by (rewrite <- Zle_Qle; lia).
  assert (0 <= inject_Z (Z.min a b) / inject_Z (Z.max a b)) as H0
    by (apply Qle_shift_div_l; lra).
  assert (inject_Z (Z.min a b) / inject_Z (Z.max a b) <= 1) as H1
    by (apply Qle_shift_div_r; lra).
  split; [lra|]. split.
  - intros Hz.
    assert (inject_Z (Z.min a b) == 0) as Hm.
    { assert (inject_Z (Z.min a b) / inject_Z (Z.max a b) == 0) as Hd by lra.
      rewrite <- (Qmult_div_r (inject_Z (Z.min a b)) (inject_Z (Z.max a b)))
        by lra.
      unfold Qdiv in Hd |- *. rewrite Hd. ring. }
    apply (proj1 (inject_Z_eq_0 _)) in Hm. lia.
  - intros ->. rewrite Z.min_l by lia. unfold Qdiv. ring.
Qed.

Lemma compare_floor_ok f pi_data :
  ValidatePiVsAcrylic.compare_floor (floor_key f) pi_data
  = Ok (Some (validation_of f pi_data)).
Proof.
  unfold ValidatePiVsAcrylic.compare_floor.
  rewrite acrylic_numbers_floor.
  destruct (acrylic_of_positive f) as [Hb Hn].
  rewrite !match_pct_value by lia. reflexivity.
Qed.

(** X10. [compare_floor] raises nothing.  It returns [None] exactly for a
    floor name other than "ground", "top" and "basement"; otherwise its
    BSSID and network matches are numbers in [[0, 100]], and the BSSID
    match is 0 exactly when the Pi frame holds no BSSID. *)
Theorem compare_floor_matches (floor_name : string) (pi_data : list PiRow) :
  ∃ r, ValidatePiVsAcrylic.compare_floor floor_name pi_data = Ok r
       ∧ (r = None ↔ floor_name ∉ floor_key <$> floors)
       ∧ ∀ v, r = Some v →
           (∃ m, ValidatePiVsAcrylic.bssid_match v = Num m
                 ∧ 0 <= m <= 100
                 ∧ (m == 0 ↔ nunique (pi_bssid <$> pi_data) = 0%nat))
           ∧ between 0 100 (ValidatePiVsAcrylic.network_match v).
Proof.
  destruct (decide (floor_name ∈ floor_key <$> floors)) as [Hin|Hout].
  - apply list_elem_of_fmap in Hin as (f & -> & _).
    rewrite compare_floor_ok. eexists. split; [reflexivity|]. split.
    + split; [done|]. intros Hn. exfalso. apply Hn.
      apply list_elem_of_fmap. exists f. split; [done|].
      unfold floors. rewrite !elem_of_cons. destruct f; tauto.
    + intros v [= <-]. destruct (acrylic_of_positive f) as [Hb Hn]. split.
      * destruct (match_value_between
                    (Z.of_nat (nunique (pi_bssid <$> pi_data)))
                    (ValidatePiVsAcrylic.bssids (acrylic_of f)))
          as (m & Hm & Hr & Hz); [lia|done|].
        exists m. split; [done|]. split; [done|]. rewrite Hz. lia.
      * destruct (match_value_between
                    (Z.of_nat (nunique (essid <$> pi_data)))
                    (ValidatePiVsAcrylic.networks (acrylic_of f)))
          as (m & Hm & Hr & _); [lia|done|].
        cbn [ValidatePiVsAcrylic.network_match validation_of].
        rewrite Hm. done.
  - pose proof Hout as Hnone. apply acrylic_numbers_unknown in Hnone.
    unfold ValidatePiVsAcrylic.compare_floor. rewrite Hnone.
    exists None. split; [done|]. split; [done|]. by intros v [=].
Qed.

Lemma mean_NaN_iff (s : list pyfloat) : mean s = NaN ↔ valid s = [].
Proof. unfold mean. by destruct (valid s). Qed.

Lemma signal_diff_NaN_iff f pi_data :
  ValidatePiVsAcrylic.signal_diff (validation_of f pi_data) = NaN
  ↔ no_slu_signal pi_data.
Proof.
  unfold no_slu_signal. rewrite <- mean_NaN_iff.
  unfold validation_of. cbn [ValidatePiVsAcrylic.signal_diff].
  by destruct (mean (signal_dbm <$> PiSelection.pi_slu pi_data)).
Qed.

Lemma signal_diff_nonneg f pi_data d :
  ValidatePiVsAcrylic.signal_diff (validation_of f pi_data) = Num d → 0 <= d.
Proof.
  unfold validation_of. cbn [ValidatePiVsAcrylic.signal_diff].
  destruct (mean (signal_dbm <$> PiSelection.pi_slu pi_data)) as [q|];
    [|done].
  cbn [fsub ValidatePiVsAcrylic.fabs]. intros H.
  assert (d = Qabs (q - ValidatePiVsAcrylic.avg_signal (acrylic_of f))) as ->
    by congruence.
  apply Qabs_nonneg.
Qed.

(** X11. For each of the three floors [compare_floor] returns a record
    whose signal difference is NaN exactly when the Pi frame has no row on
    the network with a signal value, and a non-negative number otherwise;
    with a NaN difference the messages are "ACCEPTABLE" and "VALIDATION
    PARTIAL", whatever the BSSID match. *)
Theorem compare_floor_signal_diff (f : Floor) (pi_data : list PiRow) :
  ∃ v, ValidatePiVsAcrylic.compare_floor (floor_key f) pi_data = Ok (Some v)
       ∧ (ValidatePiVsAcrylic.signal_diff v = NaN ↔ no_slu_signal pi_data)
       ∧ (PiSelection.pi_slu pi_data = [] →
          ValidatePiVsAcrylic.signal_diff v = NaN)
       ∧ (∀ d, ValidatePiVsAcrylic.signal_diff v = Num d → 0 <= d)
       ∧ (ValidatePiVsAcrylic.signal_diff v = NaN →
          ValidateAllFloors.signal_verdict (ValidatePiVsAcrylic.signal_diff v)
          = ValidateAllFloors.SignalAcceptable
          ∧ ValidateAllFloors.verdict (ValidatePiVsAcrylic.signal_diff v)
                                      (ValidatePiVsAcrylic.bssid_match v)
            = ValidateAllFloors.Partial).
Proof.
  rewrite compare_floor_ok. eexists. split; [reflexivity|]. split_and!.
  - apply signal_diff_NaN_iff.
  - intros E. apply signal_diff_NaN_iff. unfold no_slu_signal. by rewrite E.
  - apply signal_diff_nonneg.
  - by intros ->.
Qed.

Lemma verdict_cases (d m : Q) :
  (ValidateAllFloors.verdict (Num d) (Num m) = ValidateAllFloors.Successful
   ↔ d < 3 ∧ 90 < m)
  ∧ (ValidateAllFloors.verdict (Num d) (Num m) ≠ ValidateAllFloors.Partial
     ↔ (d < 3 ∧ 90 < m) ∨ (d < 5 ∧ 80 < m)).
Proof.
  unfold ValidateAllFloors.verdict, fgt.
  destruct (flt (Num d) (Num 3)) eqn:E1, (flt (Num 90) (Num m)) eqn:E2,
           (flt (Num d) (Num 5)) eqn:E3, (flt (Num 80) (Num m)) eqn:E4;
    cbn [andb];
    rewrite ?flt_Num in *; rewrite ?flt_Num_false in *;
    (split; split; intros H; try done; try lra).
  all: try (exfalso; lra).
  all: try (left; lra).
  all: try (right; lra).
  all: try (destruct H; lra).
Qed.

(** X12. The validation message never gets worse when the signal
    difference shrinks and the BSSID match grows; and a message other than
    "VALIDATION PARTIAL" is never printed under the signal message
    "ACCEPTABLE". *)
Theorem verdict_monotone (d d' m m' : Q) :
  d <= d' → m' <= m →
  (ValidateAllFloors.verdict (Num d') (Num m') = ValidateAllFloors.Successful →
   ValidateAllFloors.verdict (Num d) (Num m) = ValidateAllFloors.Successful)
  ∧ (ValidateAllFloors.verdict (Num d') (Num m') ≠ ValidateAllFloors.Partial →
     ValidateAllFloors.verdict (Num d) (Num m) ≠ ValidateAllFloors.Partial)
  ∧ (∀ x y : pyfloat,
       ValidateAllFloors.verdict x y ≠ ValidateAllFloors.Partial →
       ValidateAllFloors.signal_verdict x
       ≠ ValidateAllFloors.SignalAcceptable).
Proof.
  intros Hd Hm.
  destruct (verdict_cases d m) as [Hs Hp].
  destruct (verdict_cases d' m') as [Hs' Hp'].
  split_and!.
  - rewrite Hs, Hs'. lra.
  - rewrite Hp, Hp'. lra.
  - intros x y. unfold ValidateAllFloors.signal_verdict.
    destruct x as [p|]; [|done]. destruct y as [q|].
    + rewrite (proj2 (verdict_cases p q)).
      destruct (flt (Num p) (Num 2)) eqn:E2; [done|].
      destruct (flt (Num p) (Num 5)) eqn:E5; [done|].
      apply flt_Num_false in E5. intros [?|?]; lra.
    + unfold ValidateAllFloors.verdict, fgt.
      cbn [flt]. by rewrite !andb_false_r.
Qed.

End Validation.

(** ** Averages over the floors *)
Section FloorAverages.
Local Open Scope Q_scope.

Lemma forallb_notna (l : list pyfloat) :
  forallb notna l = true ↔ Forall (λ v, v ≠ NaN) l.
Proof.
  induction l as [|v l IH]; simpl.
  - split; [constructor | done].
  - rewrite andb_true_iff, IH, Forall_cons.
    destruct v; simpl; [split; [intros [_ ?]; by split | by intros [_ ?]] | split; [by intros [? _] | by intros [? _]]].
Qed.

Lemma np_mean_between lo hi (l : list pyfloat) :
  Forall (between lo hi) l → l ≠ [] → between lo hi (np_mean l).
Proof.
  intros Hl Hne. unfold np_mean.
  assert (Forall (λ v, ∃ q, v = Num q ∧ lo <= q <= hi) l) as Hq.
  { eapply Forall_impl; [exact Hl|]. intros [q|] Hv; [by exists q | done]. }
  destruct (valid_Forall _ _ Hq) as [Hv Hlen].
  assert (forallb notna l = true) as ->.
  { apply forallb_notna. eapply Forall_impl; [exact Hq|].
    by intros v (q & -> & _). }
  assert (0 < inject_Z (Z.of_nat (length l))) as Hn
    by (apply of_nat_pos; destruct l; [done | simpl; lia]).
  simpl. split.
  - apply Qle_shift_div_l; [done|]. rewrite <- Hlen. apply Qsum_lower.
    eapply Forall_impl; [exact Hv|]. by intros q [? _].
  - apply Qle_shift_div_r; [done|]. rewrite <- Hlen. apply Qsum_upper.
    eapply Forall_impl; [exact Hv|]. by intros q [_ ?].
Qed.

Lemma np_mean_NaN (l : list pyfloat) : NaN ∈ l → np_mean l = NaN.
Proof.
  intros Hin. unfold np_mean.
  destruct (forallb notna l) eqn:E; [|done].
  apply forallb_notna in E. rewrite Forall_forall in E. by destruct (E _ Hin).
Qed.

Lemma floor_in_floors f : f ∈ floors.
Proof. unfold floors. rewrite !elem_of_cons. destruct f; tauto. Qed.

Lemma collect_ok pi_dir fs :
  ValidateAllFloors.collect pi_dir fs
  = Ok (omap (λ f, (λ d, (f, validation_of f d)) <$> pi_dir f) fs).
Proof.
  induction fs as [|f fs IH]; [done|].
  cbn [ValidateAllFloors.collect omap list_omap].
  unfold ValidateAllFloors.compare_floor_file.
  destruct (pi_dir f) as [d|]; [rewrite compare_floor_ok|]; by rewrite IH.
Qed.

Lemma collect_keys pi_dir (fs : list Floor) :
  (omap (λ f, (λ d, (f, validation_of f d)) <$> pi_dir f) fs).*1
  = filter (λ f, is_Some (pi_dir f)) fs.
Proof.
  induction fs as [|f fs IH]; [done|].
  cbn [omap list_omap]. rewrite filter_cons.
  destruct (pi_dir f) as [d|] eqn:E; cbn [fmap option_fmap option_map].
  - rewrite decide_True by done. cbn [fmap list_fmap fst]. by f_equal.
  - rewrite decide_False by (by intros [? ?]). done.
Qed.

Lemma collect_elem pi_dir (fs : list Floor) f v :
  (f, v) ∈ omap (λ f, (λ d, (f, validation_of f d)) <$> pi_dir f) fs
  ↔ f ∈ fs ∧ ∃ d, pi_dir f = Some d ∧ v = validation_of f d.
Proof.
  rewrite list_elem_of_omap. split.
  - intros (g & Hg & Hv). destruct (pi_dir g) as [d|] eqn:E; [|done].
    simpl in Hv. injection Hv as Hfg Hv'. subst. split; [done|]. by exists d.
  - intros (Hf & d & Hd & ->). exists f. split; [done|]. by rewrite Hd.
Qed.

(** X13. [validate_all_floors] raises nothing.  Its results are for the
    floors whose Pi file exists, in the order ground, top, basement; there
    is no overall summary exactly when no file exists; otherwise the
    average BSSID match is a number in [[0, 100]], and if one validated
    floor has no row on the network with a signal value the average
    signal difference is NaN and "EXCELLENT VALIDATION" is not printed. *)
Theorem validate_all_floors_summary (pi_dir : PiDir) :
  ∃ results overall,
    ValidateAllFloors.validate_all_floors pi_dir = Ok (results, overall)
    ∧ results.*1 = floors_present pi_dir
    ∧ (∀ f v, (f, v) ∈ results ↔
              ∃ d, pi_dir f = Some d ∧ v = validation_of f d)
    ∧ (overall = None ↔ floors_present pi_dir = [])
    ∧ ∀ o, overall = Some o →
        between 0 100 (ValidateAllFloors.avg_bssid_match o)
        ∧ ((∃ f d, pi_dir f = Some d ∧ no_slu_signal d) →
           ValidateAllFloors.avg_signal_diff o = NaN
           ∧ ValidateAllFloors.excellent o = false).
Proof.
  unfold ValidateAllFloors.validate_all_floors.
  rewrite collect_ok, bind_Ok.
  pose proof (collect_keys pi_dir floors) as Hkeys.
  assert (∀ f v,
            (f, v) ∈ omap (λ f, (λ d, (f, validation_of f d)) <$> pi_dir f)
                          floors
            ↔ ∃ d, pi_dir f = Some d ∧ v = validation_of f d) as Helem.
  { intros f v. rewrite collect_elem. split; [by intros [_ ?]|].
    intros H. split; [apply floor_in_floors | done]. }
  fold (floors_present pi_dir) in Hkeys.
  revert Hkeys Helem.
  generalize (omap (λ f, (λ d, (f, validation_of f d)) <$> pi_dir f) floors)
    as results.
  intros results Hkeys Helem.
  assert (Forall (between 0 100)
            (ValidatePiVsAcrylic.bssid_match ∘ snd <$> results)) as Hbm.
  { apply Forall_fmap, Forall_forall. intros [f v] Hin.
    apply Helem in Hin as (d & Hd & ->).
    destruct (acrylic_of_positive f) as [Hb _].
    destruct (match_value_between
                (Z.of_nat (nunique (pi_bssid <$> d)))
                (ValidatePiVsAcrylic.bssids (acrylic_of f)))
      as (m & Hm & Hr & _); [lia|done|].
    cbn [compose snd ValidatePiVsAcrylic.bssid_match validation_of].
    by rewrite Hm. }
  assert ((∃ f d, pi_dir f = Some d ∧ no_slu_signal d) →
          np_mean (ValidatePiVsAcrylic.signal_diff ∘ snd <$> results) = NaN)
    as Hnan.
  { intros (f & d & Hd & Hno). apply np_mean_NaN, list_elem_of_fmap.
    exists (f, validation_of f d). split.
    - symmetry. by apply signal_diff_NaN_iff.
    - apply Helem. by exists d. }
  destruct results as [|r0 rs].
  - eexists [], None. split; [done|]. split; [done|]. split; [done|].
    split; [by rewrite <- Hkeys|]. by intros o [=].
  - eexists _, _. split; [reflexivity|]. split; [done|]. split; [done|].
    split.
    { split; [done|]. intros E. by rewrite E in Hkeys. }
    intros o Ho. injection Ho as <-.
    cbn [ValidateAllFloors.avg_bssid_match ValidateAllFloors.avg_signal_diff
         ValidateAllFloors.excellent].
    split.
    + by apply np_mean_between.
    + intros Hex. specialize (Hnan Hex). split; [exact Hnan|].
      change (flt (np_mean (ValidatePiVsAcrylic.signal_diff ∘ snd
                              <$> r0 :: rs)) (Num 3)
              && fgt (np_mean (ValidatePiVsAcrylic.bssid_match ∘ snd
                                 <$> r0 :: rs)) (Num 90) = false).
      by rewrite Hnan.
Qed.

End FloorAverages.

(** ** The validation dashboard *)
Section Dashboard.
Local Open Scope Q_scope.

Lemma acrylic_tables_agree f :
  ValidationDashboard.acrylic_totals f
  = ValidatePiVsAcrylic.bssids (acrylic_of f)
  ∧ ValidationDashboard.acrylic_signals f
    = ValidatePiVsAcrylic.avg_signal (acrylic_of f).
Proof. by destruct f. Qed.

Lemma match_percentage_ok pi_dir f :
  ValidationDashboard.match_percentage pi_dir f = Ok (detection_of pi_dir f).
Proof.
  unfold ValidationDashboard.match_percentage, detection_of.
  destruct (pi_dir f) as [d|]; [|done].
  apply match_pct_value. destruct f; simpl; lia.
Qed.

Lemma match_percentages_ok pi_dir fs :
  ValidationDashboard.match_percentages pi_dir fs
  = Ok (detection_of pi_dir <$> fs).
Proof.
  induction fs as [|f fs IH]; [done|].
  cbn [ValidationDashboard.match_percentages].
  by rewrite match_percentage_ok, bind_Ok, IH.
Qed.

Lemma detection_of_between pi_dir f :
  ∃ m, detection_of pi_dir f = Num m ∧ 0 <= m <= 100
       ∧ (pi_dir f = None → m == 0).
Proof.
  unfold detection_of. destruct (pi_dir f) as [d|].
  - destruct (match_value_between
                (Z.of_nat (nunique (pi_bssid <$> d)))
                (ValidationDashboard.acrylic_totals f))
      as (m & Hm & Hr & _); [lia|destruct f; simpl; lia|].
    exists m. by rewrite Hm.
  - exists 0. split; [done|]. split; [lra|done].
Qed.

Lemma flt_weaken a c c' : c <= c' → flt a (Num c) = true → flt a (Num c') = true.
Proof. destruct a as [q|]; [|done]. rewrite !flt_Num. lra. Qed.

Lemma fgt_weaken a c c' : c' <= c → fgt a (Num c) = true → fgt a (Num c') = true.
Proof. destruct a as [q|]; [|done]. rewrite !fgt_Num. lra. Qed.


Lemma dashboard_floor_values pi_dir f pi_data :
  pi_dir f = Some pi_data →
  detection_of pi_dir f
  = ValidatePiVsAcrylic.bssid_match (validation_of f pi_data)
  ∧ (PiSelection.pi_slu pi_data ≠ [] →
     ValidationDashboard.signal_diff pi_dir f
     = ValidatePiVsAcrylic.signal_diff (validation_of f pi_data))
  ∧ (PiSelection.pi_slu pi_data = [] →
     ValidationDashboard.signal_diff pi_dir f = Num 0).
Proof.
  intros Hf. destruct (acrylic_tables_agree f) as [Ht Hs].
  unfold detection_of, ValidationDashboard.signal_diff. rewrite Hf, Ht, Hs.
  split; [done|]. split.
  - intros Hne. rewrite decide_True; [done|].
    destruct (PiSelection.pi_slu pi_data); [done | simpl; lia].
  - intros E. rewrite E. by rewrite decide_False by (simpl; lia).
Qed.

(** X15. For a floor whose Pi file exists the dashboard shows the BSSID
    match that [compare_floor] returns; it shows the same signal
    difference when the frame has rows on the network, and 0 where
    [compare_floor] has NaN when it has none. *)
Theorem dashboard_agrees_with_compare_floor
    (pi_dir : PiDir) (f : Floor) (pi_data : list PiRow) :
  pi_dir f = Some pi_data →
  ∃ v, ValidatePiVsAcrylic.compare_floor (floor_key f) pi_data = Ok (Some v)
       ∧ ValidationDashboard.match_percentage pi_dir f
         = Ok (ValidatePiVsAcrylic.bssid_match v)
       ∧ (PiSelection.pi_slu pi_data ≠ [] →
          ValidationDashboard.signal_diff pi_dir f
          = ValidatePiVsAcrylic.signal_diff v)
       ∧ (PiSelection.pi_slu pi_data = [] →
          ValidationDashboard.signal_diff pi_dir f = Num 0
          ∧ ValidatePiVsAcrylic.signal_diff v = NaN).
Proof.
  intros Hf. rewrite compare_floor_ok. eexists. split; [reflexivity|].
  destruct (dashboard_floor_values pi_dir f pi_data Hf) as (Hm & Hd & Hz).
  rewrite match_percentage_ok, Hm.
  split; [done|]. split; [done|].
  intros E. split; [by apply Hz|].
  apply signal_diff_NaN_iff. unfold no_slu_signal. by rewrite E.
Qed.

End Dashboard.

Section DashboardAgainstValidation.
Local Open Scope Q_scope.

(** X16. When the Pi file of each of the three floors exists and has rows
    on the network, the dashboard and [validate_all_floors] average the
    same signal differences and the same BSSID matches, and whenever the
    dashboard prints "EXCELLENT VALIDATION" (difference below 2, match
    above 95) [validate_all_floors] prints its "EXCELLENT" message
    (difference below 3, match above 90). *)
Theorem dashboard_excellent_implies_validation_excellent (pi_dir : PiDir) :
  (∀ f, ∃ pi_data, pi_dir f = Some pi_data
                   ∧ PiSelection.pi_slu pi_data ≠ []) →
  ∃ d results o,
    ValidationDashboard.create_validation_dashboard pi_dir = Ok d
    ∧ ValidateAllFloors.validate_all_floors pi_dir = Ok (results, Some o)
    ∧ ValidationDashboard.signal_diffs d
      = ValidatePiVsAcrylic.signal_diff ∘ snd <$> results
    ∧ ValidationDashboard.detection d
      = ValidatePiVsAcrylic.bssid_match ∘ snd <$> results
    ∧ ValidationDashboard.avg_signal_diff d
      = ValidateAllFloors.avg_signal_diff o
    ∧ ValidationDashboard.avg_detection d
      = ValidateAllFloors.avg_bssid_match o
    ∧ (ValidationDashboard.result_excellent d = true →
       ValidateAllFloors.excellent o = true).
Proof.
  intros Hall.
  destruct (Hall Ground) as (dg & Hg & Hgs).
  destruct (Hall Top) as (dt & Ht & Hts).
  destruct (Hall Basement) as (db & Hb & Hbs).
  assert (∀ f pi_data, pi_dir f = Some pi_data →
            PiSelection.pi_slu pi_data ≠ [] →
            ValidationDashboard.signal_diff pi_dir f
            = ValidatePiVsAcrylic.signal_diff (validation_of f pi_data)
            ∧ detection_of pi_dir f
              = ValidatePiVsAcrylic.bssid_match (validation_of f pi_data))
    as Hsame.
  { intros f pi_data Hf Hne.
    destruct (dashboard_floor_values pi_dir f pi_data Hf) as (Hm & Hd & _).
    split; [by apply Hd | done]. }
  destruct (Hsame _ _ Hg Hgs) as [Sg Mg].
  destruct (Hsame _ _ Ht Hts) as [St Mt].
  destruct (Hsame _ _ Hb Hbs) as [Sb Mb].
  unfold ValidationDashboard.create_validation_dashboard,
    ValidateAllFloors.validate_all_floors.
  rewrite match_percentages_ok, collect_ok, !bind_Ok.
  unfold floors. cbn [omap list_omap fmap list_fmap].
  rewrite Hg, Ht, Hb. cbn [fmap option_fmap option_map].
  rewrite Sg, St, Sb, Mg, Mt, Mb.
  eexists _, _, _. split; [reflexivity|]. split; [reflexivity|].
  cbn [ValidationDashboard.signal_diffs ValidationDashboard.detection
       ValidationDashboard.avg_signal_diff ValidationDashboard.avg_detection
       ValidationDashboard.result_excellent
       ValidateAllFloors.avg_signal_diff ValidateAllFloors.avg_bssid_match
       ValidateAllFloors.excellent fmap list_fmap compose snd].
  split; [done|]. split; [done|]. split; [done|]. split; [done|].
  rewrite !andb_true_iff. intros [H2 H95]. split.
  - eapply flt_weaken; [|exact H2]. lra.
  - eapply fgt_weaken; [|exact H95]. lra.
Qed.

End DashboardAgainstValidation.

(** ** Channels and bands of the Pi parser *)
Section Channels.

(** X17. [_channel_to_frequency] returns a frequency exactly for a channel
    whose integer part is in 1..14 or 36..165: 2407 + 5c, between 2412 and
    2477 MHz, labelled "2.4 GHz", in the first case, and 5000 + 5c, between
    5180 and 5825 MHz, labelled "5 GHz", in the second; the frequency is
    never 0, and two channels with the same frequency have the same integer
    part. *)
Theorem channel_frequency_band (channel : pyfloat) :
  (∀ f, ParsePiData.channel_to_frequency channel = Some f →
     ∃ q, channel = Num q
          ∧ f ≠ 0%Z
          ∧ (((1 ≤ ParsePiData.py_int q ≤ 14)%Z
              ∧ f = (2407 + ParsePiData.py_int q * 5)%Z
              ∧ (2412 ≤ f ≤ 2477)%Z
              ∧ ParsePiData.band (Some f) = Some "2.4 GHz")
             ∨ ((36 ≤ ParsePiData.py_int q ≤ 165)%Z
                ∧ f = (5000 + ParsePiData.py_int q * 5)%Z
                ∧ (5180 ≤ f ≤ 5825)%Z
                ∧ ParsePiData.band (Some f) = Some "5 GHz")))
  ∧ (ParsePiData.channel_to_frequency channel = None ↔
     channel = NaN
     ∨ ∃ q, channel = Num q
            ∧ ¬ (1 ≤ ParsePiData.py_int q ≤ 14)%Z
            ∧ ¬ (36 ≤ ParsePiData.py_int q ≤ 165)%Z)
  ∧ (∀ q q' f, channel = Num q →
       ParsePiData.channel_to_frequency (Num q) = Some f →
       ParsePiData.channel_to_frequency (Num q') = Some f →
       ParsePiData.py_int q = ParsePiData.py_int q').
Proof.
  assert (∀ f, (2412 ≤ f ≤ 2477)%Z →
               ParsePiData.band (Some f) = Some "2.4 GHz") as Hlow.
  { intros f Hf. unfold ParsePiData.band.
    rewrite !bool_decide_eq_true_2 by lia. done. }
  assert (∀ f, (5180 ≤ f ≤ 5825)%Z →
               ParsePiData.band (Some f) = Some "5 GHz") as Hhigh.
  { intros f Hf. unfold ParsePiData.band.
    rewrite bool_decide_eq_true_2 by lia.
    rewrite bool_decide_eq_false_2 by lia. done. }
  split_and!.
  - intros f. destruct channel as [q|]; [|done].
    unfold ParsePiData.channel_to_frequency.
    repeat case_decide; intros [= <-]; exists q; (split; [done|]);
      (split; [lia|]).
    + left. split_and!; try lia. apply Hlow. lia.
    + right. split_and!; try lia. apply Hhigh. lia.
  - destruct channel as [q|]; [|split; [by left|done]].
    unfold ParsePiData.channel_to_frequency.
    repeat case_decide; split; try done.
    + intros [?|(q' & [= <-] & ? & ?)]; [done|lia].
    + intros [?|(q' & [= <-] & ? & ?)]; [done|lia].
    + intros _. right. by exists q.
  - intros q q' f _. unfold ParsePiData.channel_to_frequency.
    repeat case_decide; intros [= <-] [=]; lia.
Qed.

End Channels.

(** ** File names *)
Section FileNames.
Variable isalnum : ExtractAcrylicData.codepoint → bool.

Lemma is_safe_low_line :
  ExtractAcrylicData.is_safe isalnum ExtractAcrylicData.low_line = true.
Proof.
  unfold ExtractAcrylicData.is_safe. apply orb_true_iff. right.
  apply bool_decide_eq_true. unfold ExtractAcrylicData.kept.
  rewrite !elem_of_cons. auto.
Qed.

Lemma safe_ssid_chars ssid :
  Forall (λ c, ExtractAcrylicData.is_safe isalnum c = true)
         (ExtractAcrylicData.safe_ssid isalnum ssid).
Proof.
  apply Forall_fmap, Forall_forall. intros c _. cbn [compose].
  destruct (ExtractAcrylicData.is_safe isalnum c) eqn:E;
    [done|apply is_safe_low_line].
Qed.

Lemma safe_ssid_id ssid :
  Forall (λ c, ExtractAcrylicData.is_safe isalnum c = true) ssid →
  ExtractAcrylicData.safe_ssid isalnum ssid = ssid.
Proof.
  unfold ExtractAcrylicData.safe_ssid.
  induction 1 as [|c s Hc _ IH]; [done|].
  rewrite fmap_cons, Hc. by f_equal.
Qed.


End FileNames.

(** ** Splitting and stripping *)
Section Strings.

Lemma chars_cons c s : chars (String c s) = c :: chars s.
Proof. reflexivity. Qed.

Lemma split_on_nonempty sep s : split_on sep s ≠ [].
Proof.
  destruct s as [|c s]; [done|]. cbn [split_on].
  case_decide; [done|]. by destruct (split_on sep s).
Qed.

Lemma split_on_cons_other sep c s :
  c ≠ sep →
  ∃ field fields, split_on sep s = field :: fields
                  ∧ split_on sep (String c s) = String c field :: fields.
Proof.
  intros Hc. cbn [split_on]. rewrite decide_False by done.
  destruct (split_on sep s) as [|field fields] eqn:E.
  - by destruct (split_on_nonempty sep s).
  - by exists field, fields.
Qed.

Lemma join_with_cons sep field fields :
  fields ≠ [] →
  join_with sep (field :: fields)
  = field +:+ String sep (join_with sep fields).
Proof. by destruct fields. Qed.

(** Joining the fields of a split gives the string back. *)
Lemma join_split sep s : join_with sep (split_on sep s) = s.
Proof.
  induction s as [|c s IH]; [done|].
  destruct (decide (c = sep)) as [->|Hc].
  - cbn [split_on]. rewrite decide_True by done.
    rewrite join_with_cons by apply split_on_nonempty.
    by rewrite append_nil, IH.
  - destruct (split_on_cons_other sep c s Hc) as (f & fs & E & ->).
    rewrite E in IH. destruct fs as [|f' fs].
    + cbn [join_with] in *. by rewrite IH.
    + rewrite join_with_cons in * by done.
      by rewrite append_cons, IH.
Qed.

Lemma length_split_on sep s :
  length (split_on sep s) = S (count_char sep s).
Proof.
  unfold count_char. induction s as [|c s IH]; [done|].
  rewrite chars_cons, filter_cons.
  destruct (decide (c = sep)) as [->|Hc].
  - cbn [split_on]. rewrite decide_True by done. simpl. by rewrite IH.
  - destruct (split_on_cons_other sep c s Hc) as (f & fs & E & ->).
    by rewrite <- IH, E.
Qed.

Lemma split_on_no_sep sep s :
  Forall (λ field, sep ∉ chars field) (split_on sep s).
Proof.
  induction s as [|c s IH].
  - constructor; [|constructor]. by intros ?%elem_of_nil.
  - destruct (decide (c = sep)) as [->|Hc].
    + cbn [split_on]. rewrite decide_True by done.
      constructor; [|done]. by intros ?%elem_of_nil.
    + destruct (split_on_cons_other sep c s Hc) as (f & fs & E & ->).
      rewrite E in IH. apply Forall_cons in IH as [Hf Hfs].
      constructor; [|done]. rewrite chars_cons.
      intros [->|?]%elem_of_cons; done.
Qed.

Lemma lstrip_chars s c : c ∈ chars (lstrip s) → c ∈ chars s.
Proof.
  induction s as [|x s IH]; [done|]. cbn [lstrip].
  destruct (is_space x); [|done]. rewrite chars_cons. intros H. right. auto.
Qed.

Lemma rstrip_chars s c : c ∈ chars (rstrip s) → c ∈ chars s.
Proof.
  induction s as [|x s IH]; [done|]. cbn [rstrip].
  destruct (rstrip s) as [|y r] eqn:E.
  - destruct (is_space x); [by intros ?%elem_of_nil|].
    rewrite !chars_cons. intros [->|?%elem_of_nil]%elem_of_cons; [left|done].
  - rewrite !(chars_cons x). intros [->|H]%elem_of_cons; [left|right; auto].
Qed.

Lemma strip_chars s c : c ∈ chars (strip s) → c ∈ chars s.
Proof. intros H. by apply lstrip_chars, rstrip_chars. Qed.

Lemma rstrip_rstrip s : rstrip (rstrip s) = rstrip s.
Proof.
  induction s as [|x s IH]; [done|]. cbn [rstrip].
  destruct (rstrip s) as [|y r] eqn:E.
  - destruct (is_space x) eqn:Ex; [done|]. cbn [rstrip]. by rewrite Ex.
  - change (rstrip (String x (String y r)))
      with (match rstrip (String y r) with
            | EmptyString =>
                if is_space x then EmptyString else String x EmptyString
            | r0 => String x r0
            end).
    by rewrite IH.
Qed.

Lemma lstrip_rstrip s : lstrip (rstrip s) = rstrip (lstrip s).
Proof.
  induction s as [|x s IH]; [done|].
  destruct (is_space x) eqn:Ex.
  - cbn [lstrip]. rewrite Ex, <- IH. cbn [rstrip].
    destruct (rstrip s) as [|y r] eqn:E.
    + by rewrite Ex.
    + cbn [lstrip]. by rewrite Ex.
  - cbn [lstrip]. rewrite Ex. cbn [rstrip].
    destruct (rstrip s) as [|y r] eqn:E; rewrite ?Ex; cbn [lstrip];
      by rewrite Ex.
Qed.

Lemma lstrip_lstrip s : lstrip (lstrip s) = lstrip s.
Proof.
  induction s as [|x s IH]; [done|]. cbn [lstrip].
  destruct (is_space x) eqn:Ex; [done|]. cbn [lstrip]. by rewrite Ex.
Qed.

(** Stripping twice is stripping once. *)
Lemma strip_trimmed s : trimmed (strip s).
Proof.
  unfold trimmed, strip.
  by rewrite lstrip_rstrip, lstrip_lstrip, rstrip_rstrip.
Qed.

(** X19. [_csv_split] returns one more field than the stripped line has
    commas, never an empty list; no field contains a comma or has white
    space at either end; and the fields before their own stripping, joined
    with commas, give the stripped line back. *)
Theorem csv_split_fields (line : string) :
  length (ParsePiData.csv_split line) = S (count_char comma (strip line))
  ∧ ParsePiData.csv_split line ≠ []
  ∧ Forall (λ field, trimmed field ∧ comma ∉ chars field)
           (ParsePiData.csv_split line)
  ∧ join_with comma (split_on comma (strip line)) = strip line.
Proof.
  unfold ParsePiData.csv_split. split_and!.
  - by rewrite length_fmap, length_split_on.
  - intros E%fmap_nil_inv. by apply split_on_nonempty in E.
  - apply Forall_fmap. eapply Forall_impl; [apply split_on_no_sep|].
    intros field Hf. split; [apply strip_trimmed|].
    intros Hin. by apply Hf, strip_chars.
  - apply join_split.
Qed.

End Strings.

(** ** Floor names from file names *)
Section FloorNames.

Lemma prefix_first_char x pat c s :
  x ≠ c → String.prefix (String x pat) (String c s) = false.
Proof.
  intros Hx. cbn [String.prefix]. by destruct (Ascii.ascii_dec x c).
Qed.

(** Removing the suffix that [parse_all_surveys] appends. *)
Lemma remove_floor_parsed floor :
  underscore ∉ chars floor →
  str_remove "_floor_parsed" (floor +:+ "_floor_parsed") = floor.
Proof.
  unfold str_remove. induction floor as [|c f IH]; intros Hc.
  - reflexivity.
  - rewrite chars_cons, not_elem_of_cons in Hc. destruct Hc as [Hc Hf].
    rewrite append_cons. cbn [remove_from].
    rewrite (prefix_first_char underscore "floor_parsed") by done.
    by rewrite IH.
Qed.

Lemma floor_of_stem_fields filename :
  (∃ first others,
      split_on underscore filename
      = first :: ParsePiData.floor_of_stem filename :: others)
  ∨ (split_on underscore filename = [filename]
     ∧ (underscore ∉ chars filename)
     ∧ ParsePiData.floor_of_stem filename = "unknown").
Proof.
  unfold ParsePiData.floor_of_stem.
  pose proof (join_split underscore filename) as Hj.
  pose proof (split_on_no_sep underscore filename) as Hn.
  destruct (split_on underscore filename) as [|first [|second others]] eqn:E.
  - by apply split_on_nonempty in E.
  - right. cbn [join_with] in Hj. subst first.
    rewrite decide_False by (simpl; lia).
    split_and!; [done| |done]. by apply Forall_cons in Hn as [? _].
  - left. rewrite decide_True by (simpl; lia). by exists first, others.
Qed.

(** X20. The floor name that [parse_all_surveys] takes from a capture file
    name is its second underscore-separated field, or "unknown" when the
    name has no underscore; it holds no underscore, and
    [PiSurveyAnalyzer] recovers it from the name of the parsed file that
    [parse_all_surveys] writes. *)
Theorem floor_name_round_trip (filename : string) :
  let floor := ParsePiData.floor_of_stem filename in
  analyzer_floor_name (ParsePiData.output_stem floor) = floor
  ∧ (underscore ∉ chars floor)
  ∧ ((∃ first others,
        split_on underscore filename = first :: floor :: others
        ∧ filename = join_with underscore (first :: floor :: others))
     ∨ ((underscore ∉ chars filename) ∧ floor = "unknown")).
Proof.
  intros floor. unfold floor.
  assert (underscore ∉ chars (ParsePiData.floor_of_stem filename)) as Hno.
  { destruct (floor_of_stem_fields filename)
      as [(first & others & E)|(_ & _ & ->)].
    - pose proof (split_on_no_sep underscore filename) as Hn.
      rewrite E in Hn.
      by apply Forall_cons in Hn as [_ [? _]%Forall_cons].
    - refine (bool_decide_unpack _ _). by vm_compute. }
  split_and!.
  - by apply remove_floor_parsed.
  - done.
  - destruct (floor_of_stem_fields filename)
      as [(first & others & E)|(_ & Hu & Hf)].
    + left. exists first, others. split; [done|].
      by rewrite <- E, join_split.
    + right. done.
Qed.

End FloorNames.

(** ** The sections of a capture file *)
Section Sections.

Lemma headers_exclusive line : ap_header line → ¬ client_header line.
Proof.
  unfold ap_header, client_header, startswith.
  destruct line as [|c s]; [done|]. cbn [String.prefix].
  destruct (Ascii.ascii_dec _ c) as [<-|]; [|done].
  intros _. by destruct (Ascii.ascii_dec _ _).
Qed.

Lemma scan_header h rest i ap :
  ap_header h → ParsePiData.scan (h :: rest) i ap = ParsePiData.scan rest (S i) i.
Proof. intros Hh. cbn [ParsePiData.scan]. by rewrite Hh. Qed.

Lemma scan_client s rest i ap :
  client_header s → ParsePiData.scan (s :: rest) i ap = (ap, i).
Proof.
  intros Hs. cbn [ParsePiData.scan].
  destruct (startswith "BSSID" s) eqn:E.
  - by destruct (headers_exclusive s E).
  - by rewrite Hs.
Qed.

Lemma scan_other l rest i ap :
  ¬ ap_header l → ¬ client_header l →
  ParsePiData.scan (l :: rest) i ap = ParsePiData.scan rest (S i) ap.
Proof.
  unfold ap_header, client_header. intros Ha Hc. cbn [ParsePiData.scan].
  destruct (startswith "BSSID" l); [done|].
  by destruct (startswith "Station MAC" l).
Qed.

Lemma scan_skip body rest i ap :
  Forall (λ l, ¬ ap_header l ∧ ¬ client_header l) body →
  ParsePiData.scan (body ++ rest) i ap
  = ParsePiData.scan rest (i + length body) ap.
Proof.
  intros Hb. revert i. induction Hb as [|l body [Ha Hc] _ IH]; intros i.
  - by rewrite Nat.add_0_r.
  - cbn [app length]. rewrite scan_other, IH by done. f_equal. lia.
Qed.

(** Lines before the client header move [ap_start] only to one of their
    own indices. *)
Lemma scan_before pre rest i ap :
  Forall (λ l, ¬ client_header l) pre →
  ∃ ap', ParsePiData.scan (pre ++ rest) i ap
         = ParsePiData.scan rest (i + length pre) ap'.
Proof.
  intros Hp. revert i ap. induction Hp as [|l pre Hc _ IH]; intros i ap.
  - exists ap. by rewrite Nat.add_0_r.
  - cbn [app length]. destruct (startswith "BSSID" l) eqn:E.
    + rewrite scan_header by done. destruct (IH (S i) i) as [ap' ->].
      exists ap'. f_equal. lia.
    + rewrite scan_other; [|unfold ap_header; by rewrite E|done].
      destruct (IH (S i) ap) as [ap' ->]. exists ap'. f_equal. lia.
Qed.

(** What [scan] returns, read backwards. *)
Lemma scan_inv lines i ap a c :
  ParsePiData.scan lines i ap = (a, c) →
  (c = 0%nat ∧ Forall (λ l, ¬ client_header l) lines)
  ∨ ∃ pre s post,
      lines = pre ++ s :: post
      ∧ Forall (λ l, ¬ client_header l) pre
      ∧ client_header s
      ∧ c = (i + length pre)%nat
      ∧ ((a = ap ∧ Forall (λ l, ¬ ap_header l) pre)
         ∨ ∃ p1 h p2,
             pre = p1 ++ h :: p2 ∧ ap_header h
             ∧ Forall (λ l, ¬ ap_header l) p2
             ∧ a = (i + length p1)%nat).
Proof.
  revert i ap. induction lines as [|l lines IH]; intros i ap Hs.
  - injection Hs as <- <-. left. by split.
  - destruct (startswith "BSSID" l) eqn:Ea.
    + rewrite scan_header in Hs by done.
      destruct (IH _ _ Hs) as [[-> Hn]|(pre & s & post & -> & Hp & Hcs & -> & Ha)].
      * left. split; [done|]. constructor; [by apply headers_exclusive|done].
      * right. exists (l :: pre), s, post. split_and!; [done| |done|simpl; lia|].
        { constructor; [by apply headers_exclusive|done]. }
        right. destruct Ha as [[-> Hna]|(p1 & h & p2 & -> & Hh & Hp2 & ->)].
        -- exists [], l, pre. split_and!; [done|done|done|simpl; lia].
        -- exists (l :: p1), h, p2. split_and!; [done|done|done|simpl; lia].
    + destruct (startswith "Station MAC" l) eqn:Ec.
      * rewrite scan_client in Hs by done. injection Hs as <- <-.
        right. exists [], l, lines.
        split_and!; [done|constructor|done|simpl; lia|].
        left. split; [done|constructor].
      * rewrite scan_other in Hs;
          [|unfold ap_header; by rewrite Ea|unfold client_header; by rewrite Ec].
        destruct (IH _ _ Hs) as [[-> Hn]|(pre & s & post & -> & Hp & Hcs & -> & Ha)].
        -- left. split; [done|]. constructor; [unfold client_header; by rewrite Ec|done].
        -- right. exists (l :: pre), s, post.
           split_and!; [done| |done|simpl; lia|].
           { constructor; [unfold client_header; by rewrite Ec|done]. }
           destruct Ha as [[-> Hna]|(p1 & h & p2 & -> & Hh & Hp2 & ->)].
           ++ left. split; [done|]. constructor; [unfold ap_header; by rewrite Ea|done].
           ++ right. exists (l :: p1), h, p2.
              split_and!; [done|done|done|simpl; lia].
Qed.

Lemma parse_clients_returns lines :
  ∃ t, ParsePiData.parse_clients lines = ParsePiData.Returns t.
Proof.
  unfold ParsePiData.parse_clients.
  destruct (decide (length lines < 2)%nat) as [|Hn]; [by eexists|].
  destruct lines as [|first rest]; [simpl in Hn; lia|].
  cbn zeta. destruct (ParsePiData.data_rows _ rest); by eexists.
Qed.

Lemma data_rows_length header lines :
  Forall (λ row, length row = length header)
         (ParsePiData.data_rows header lines).
Proof.
  induction lines as [|line rest IH]; [constructor|].
  cbn [ParsePiData.data_rows].
  destruct (decide (strip line = EmptyString)); [done|]. cbn zeta.
  destruct (decide (length header ≤ length (ParsePiData.csv_split line))%nat);
    [|done].
  constructor; [|done]. rewrite length_take. lia.
Qed.

Lemma slice_middle {A} (pre mid post : list A) :
  ParsePiData.slice (pre ++ mid ++ post) (length pre)
                    (length pre + length mid) = mid.
Proof.
  unfold ParsePiData.slice. rewrite drop_app_length.
  replace (length pre + length mid - length pre)%nat with (length mid) by lia.
  by rewrite take_app_length.
Qed.

Lemma scan_capture lines pre h body s post :
  capture lines pre h body s post →
  ParsePiData.scan lines 0 0
  = (length pre, (length pre + length (h :: body))%nat).
Proof.
  intros (-> & _ & Hpre & Hh & Hbody & Hs).
  destruct (scan_before pre (h :: body ++ s :: post) 0 0 Hpre) as [ap' ->].
  rewrite scan_header, scan_skip, scan_client by done.
  f_equal. simpl. lia.
Qed.

Lemma parse_capture lines pre h body s post :
  capture lines pre h body s post →
  ∃ clients,
    ParsePiData.parse_clients (s :: post) = ParsePiData.Returns clients
    ∧ ParsePiData.parse lines
      = ParsePiData.Returns
          ({| ParsePiData.columns := ParsePiData.csv_split h;
              ParsePiData.rows :=
                ParsePiData.data_rows (ParsePiData.csv_split h) body |},
           Some clients).
Proof.
  intros Hc. destruct (parse_clients_returns (s :: post)) as [clients Hcl].
  exists clients. split; [done|].
  unfold ParsePiData.parse. rewrite (scan_capture _ _ _ _ _ _ Hc).
  destruct Hc as (-> & Hne & _).
  assert (0 < length pre)%nat by (destruct pre; [done|simpl; lia]).
  rewrite decide_True by (simpl; lia).
  change (h :: body ++ s :: post) with ((h :: body) ++ s :: post) at 1.
  rewrite slice_middle. cbn [ParsePiData.parse_access_points]. cbn zeta.
  rewrite decide_True by (simpl; lia).
  replace (drop _ _) with (s :: post); [by rewrite Hcl|].
  change (h :: body ++ s :: post) with ((h :: body) ++ s :: post).
  by rewrite app_assoc, <- length_app, drop_app_length.
Qed.

Lemma parse_cases lines :
  (∃ pre h body s post, capture lines pre h body s post)
  ∨ ParsePiData.parse lines = ParsePiData.Raises ParsePiData.TypeError.
Proof.
  unfold ParsePiData.parse.
  destruct (ParsePiData.scan lines 0 0) as [a c] eqn:Hs.
  destruct (decide (0 < a ∧ a < c)%nat) as [[Ha Hac]|Hn].
  - left. apply scan_inv in Hs.
    destruct Hs as [[-> _]|(pre & s & post & -> & Hp & Hcs & -> & Hap)]; [lia|].
    destruct Hap as [[-> _]|(p1 & h & p2 & -> & Hh & Hp2 & ->)]; [lia|].
    exists p1, h, p2, s, post.
    apply Forall_app in Hp as [Hp1 Hp]. apply Forall_cons in Hp as [_ Hp].
    split_and!; [by rewrite <- app_assoc| |done|done| |done].
    + destruct p1; [simpl in Ha; lia|done].
    + apply Forall_forall. intros l Hl. split.
      * by apply (proj1 (Forall_forall _ _) Hp2).
      * by apply (proj1 (Forall_forall _ _) Hp).
  - right. destruct (decide (0 < c)%nat); [|done].
    by destruct (parse_clients_returns (drop c lines)) as [t ->].
Qed.

(** X21. [parse] cuts the file at its first client header: the
    access-point frame, as handed to the cleaning step, has the fields of
    the last access-point header before it as columns and one row, as long
    as the header, for each later line before the client header that is not
    blank and has enough fields.  With
    no such cut (no client header, or no access-point header after the first
    line and before it) [parse] raises [TypeError]; it never raises
    [IndexError]. *)
Theorem parse_sections (lines : list string) :
  (∀ pre h body s post,
     capture lines pre h body s post →
     ∃ clients,
       ParsePiData.parse_clients (s :: post) = ParsePiData.Returns clients
       ∧ ParsePiData.parse lines
         = ParsePiData.Returns
             ({| ParsePiData.columns := ParsePiData.csv_split h;
                 ParsePiData.rows :=
                   ParsePiData.data_rows (ParsePiData.csv_split h) body |},
              Some clients)
       ∧ Forall (λ row, length row = length (ParsePiData.csv_split h))
                (ParsePiData.data_rows (ParsePiData.csv_split h) body))
  ∧ ((∀ pre h body s post, ¬ capture lines pre h body s post) →
     ParsePiData.parse lines = ParsePiData.Raises ParsePiData.TypeError)
  ∧ (Forall (λ l, ¬ client_header l) lines →
     ParsePiData.parse lines = ParsePiData.Raises ParsePiData.TypeError)
  ∧ (∀ first rest,
       lines = first :: rest → Forall (λ l, ¬ ap_header l) rest →
       ParsePiData.parse lines = ParsePiData.Raises ParsePiData.TypeError)
  ∧ ParsePiData.parse lines ≠ ParsePiData.Raises ParsePiData.IndexError.
Proof.
  split_and!.
  - intros pre h body s post Hc.
    destruct (parse_capture _ _ _ _ _ _ Hc) as (clients & Hcl & Hp).
    exists clients. split_and!; [done|done|apply data_rows_length].
  - intros Hn. destruct (parse_cases lines) as [(pre & h & body & s & post & Hc)|];
      [by destruct (Hn pre h body s post)|done].
  - intros Hn. destruct (parse_cases lines) as [(pre & h & body & s & post & Hc)|];
      [|done].
    destruct Hc as (-> & _ & _ & _ & _ & Hs).
    rewrite Forall_forall in Hn. destruct (Hn s); [|done].
    rewrite elem_of_app, !elem_of_cons, elem_of_app, elem_of_cons. tauto.
  - intros first rest -> Hn.
    destruct (parse_cases (first :: rest)) as [(pre & h & body & s & post & Hc)|];
      [|done].
    destruct Hc as (E & Hne & _ & Hh & _).
    destruct pre as [|p pre]; [done|]. injection E as _ ->.
    rewrite Forall_forall in Hn. destruct (Hn h); [|done].
    rewrite elem_of_app, elem_of_cons. tauto.
  - destruct (parse_cases lines) as [(pre & h & body & s & post & Hc)|E].
    + by destruct (parse_capture _ _ _ _ _ _ Hc) as (clients & _ & ->).
    + by rewrite E.
Qed.

End Sections.

(** ** From capture files to parsed files *)
Section CaptureNames.

Lemma chars_app a b : chars (a +:+ b) = chars a ++ chars b.
Proof.
  induction a as [|c a IH]; [by rewrite append_nil|].
  by rewrite append_cons, !chars_cons, IH.
Qed.

Lemma chars_inj a b : chars a = chars b → a = b.
Proof.
  revert b. induction a as [|c a IH]; intros [|d b]; try done.
  rewrite !chars_cons. intros [= -> H]. f_equal. by apply IH.
Qed.

Lemma append_inj_l a b suffix : a +:+ suffix = b +:+ suffix → a = b.
Proof.
  intros H. apply chars_inj.
  apply (f_equal chars) in H. rewrite !chars_app in H.
  by apply app_inv_tail in H.
Qed.

Lemma split_on_fresh sep s : sep ∉ chars s → split_on sep s = [s].
Proof.
  induction s as [|c s IH]; [done|].
  rewrite chars_cons, not_elem_of_cons. intros [Hc Hs].
  cbn [split_on]. rewrite decide_False by done. by rewrite IH.
Qed.

Lemma split_on_app sep a b :
  sep ∉ chars a →
  split_on sep (a +:+ String sep b) = a :: split_on sep b.
Proof.
  induction a as [|c a IH].
  - intros _. rewrite append_nil. cbn [split_on]. by rewrite decide_True.
  - rewrite chars_cons, not_elem_of_cons. intros [Hc Ha].
    rewrite append_cons. cbn [split_on]. rewrite decide_False by done.
    by rewrite IH.
Qed.

(** A string that holds the separator, cut at its first occurrence. *)
Lemma first_sep sep w :
  sep ∈ chars w → ∃ a b, w = a +:+ String sep b ∧ sep ∉ chars a.
Proof.
  induction w as [|c w IH]; [by intros ?%elem_of_nil|].
  rewrite chars_cons. destruct (decide (c = sep)) as [->|Hc].
  - intros _. exists EmptyString, w. split; [by rewrite append_nil|].
    by intros ?%elem_of_nil.
  - intros [?|Hw]%elem_of_cons; [done|].
    destruct (IH Hw) as (a & b & -> & Ha). exists (String c a), b.
    split; [by rewrite append_cons|].
    rewrite chars_cons, not_elem_of_cons. by split; [congruence|].
Qed.

Lemma floor_key_chars f : (underscore ∉ chars (floor_key f))
                          ∧ (hyphen ∉ chars (floor_key f)).
Proof.
  destruct f; split; refine (bool_decide_unpack _ _); by vm_compute.
Qed.

(** The floor name is the first field of what follows [survey_]. *)
Lemma floor_of_capture_stem w :
  ∃ others,
    split_on underscore (w +:+ "-01")
    = ParsePiData.floor_of_stem (capture_stem w) :: others.
Proof.
  unfold ParsePiData.floor_of_stem, capture_stem.
  change ("survey_" +:+ w +:+ "-01")
    with ("survey" +:+ String underscore (w +:+ "-01")).
  rewrite split_on_app by (refine (bool_decide_unpack _ _); by vm_compute).
  destruct (split_on underscore (w +:+ "-01")) as [|field fields] eqn:E.
  - by destruct (split_on_nonempty underscore (w +:+ "-01")).
  - rewrite decide_True by (simpl; lia). by exists fields.
Qed.

Lemma floor_of_plain w :
  underscore ∉ chars w →
  ParsePiData.floor_of_stem (capture_stem w) = w +:+ "-01".
Proof.
  intros Hw. destruct (floor_of_capture_stem w) as [others E].
  rewrite split_on_fresh in E; [congruence|].
  rewrite chars_app, not_elem_of_app. split; [done|].
  refine (bool_decide_unpack _ _). by vm_compute.
Qed.

Lemma floor_of_fields a b :
  underscore ∉ chars a →
  ParsePiData.floor_of_stem (capture_stem (a +:+ String underscore b)) = a.
Proof.
  intros Ha. destruct (floor_of_capture_stem (a +:+ String underscore b))
    as [others E].
  rewrite append_assoc, append_cons, split_on_app in E by done. congruence.
Qed.

(** X22. For a capture file [survey_<w>-01.csv], the only names
    [parse_all_surveys] reads, the floor name is never the fallback of a
    name without underscore: it is [<w>-01] when [w] has no underscore and
    the part of [w] before its first underscore otherwise.  So the parsed
    file it writes is one that the analysis and validation scripts open
    exactly when the capture is named [survey_<floor>_<anything>-01.csv]
    for one of the floors ground, top and basement. *)
Theorem parsed_file_opened (w : string) :
  let floor := ParsePiData.floor_of_stem (capture_stem w) in
  (2 ≤ length (split_on underscore (capture_stem w)))%nat
  ∧ ((underscore ∉ chars w) → floor = w +:+ "-01")
  ∧ (∀ a b, w = a +:+ String underscore b → (underscore ∉ chars a) →
       floor = a)
  ∧ ((∃ f, ParsePiData.output_stem floor = parsed_stem f)
     ↔ ∃ f b, w = floor_key f +:+ String underscore b).
Proof.
  cbn zeta. split_and!.
  - unfold capture_stem.
    change ("survey_" +:+ w +:+ "-01")
      with ("survey" +:+ String underscore (w +:+ "-01")).
    rewrite split_on_app by (refine (bool_decide_unpack _ _); by vm_compute).
    destruct (split_on underscore (w +:+ "-01")) eqn:E; [|simpl; lia].
    by destruct (split_on_nonempty underscore (w +:+ "-01")).
  - apply floor_of_plain.
  - intros a b -> Ha. by apply floor_of_fields.
  - split.
    + intros [f Hf]. apply append_inj_l in Hf.
      destruct (decide (underscore ∈ chars w)) as [Hw|Hw].
      * destruct (first_sep _ _ Hw) as (a & b & -> & Ha).
        rewrite floor_of_fields in Hf by done. subst a. by exists f, b.
      * rewrite floor_of_plain in Hf by done.
        destruct (floor_key_chars f) as [_ Hh]. destruct Hh.
        rewrite <- Hf, chars_app, elem_of_app. right.
        refine (bool_decide_unpack _ _). by vm_compute.
    + intros (f & b & ->). exists f.
      rewrite floor_of_fields by apply floor_key_chars. done.
Qed.

End CaptureNames.

(** ** Instances on the example frames *)
Section MoreWitnesses.
Local Open Scope Q_scope.


(** The bars of [survey_example]. *)
Lemma coverage_quality_matches_report_witness :
  W.select_slu_users survey_example ≠ []
  ∧ ∃ a, W.analyze_floor survey_example = Ok (Some a)
         ∧ Charts.coverage_quality survey_example
           = Ok (Some [(W.excellent a, W.pct_excellent a);
                       (W.good a, W.pct_good a);
                       (W.fair a, W.pct_fair a);
                       (W.poor a, W.pct_poor a)]).
Proof.
  assert (W.select_slu_users survey_example ≠ []) as Hne
    by (rewrite survey_example_selected; discriminate).
  split; [exact Hne|].
  exact (coverage_quality_matches_report survey_example Hne).
Defined.

(** The comparison chart of [survey_example]. *)
Lemma building_comparison_matches_report_witness :
  W.select_slu_users survey_example ≠ []
  ∧ ∃ e a, Charts.building_comparison survey_example = Ok (Some e)
           ∧ W.analyze_floor survey_example = Ok (Some a)
           ∧ Charts.locations e = W.total_locations a
           ∧ Charts.handover_coverage e = W.handover_coverage a
           ∧ Charts.avg_signal e = W.avg_signal_all a
           ∧ between 0 100 (Charts.handover_coverage e).
Proof.
  assert (W.select_slu_users survey_example ≠ []) as Hne
    by (rewrite survey_example_selected; discriminate).
  split; [exact Hne|].
  exact (building_comparison_matches_report survey_example Hne).
Defined.

(** A difference of 1 dBm with a match of 96 against 2 dBm with 95. *)
Lemma verdict_monotone_witness :
  1 <= 2 ∧ 95 <= 96
  ∧ (ValidateAllFloors.verdict (Num 2) (Num 95) = ValidateAllFloors.Successful →
     ValidateAllFloors.verdict (Num 1) (Num 96) = ValidateAllFloors.Successful)
  ∧ (ValidateAllFloors.verdict (Num 2) (Num 95) ≠ ValidateAllFloors.Partial →
     ValidateAllFloors.verdict (Num 1) (Num 96) ≠ ValidateAllFloors.Partial).
Proof.
  assert (1 <= 2) as Hd by (unfold Qle; simpl; lia).
  assert (95 <= 96) as Hm by (unfold Qle; simpl; lia).
  split; [exact Hd|]. split; [exact Hm|].
  split.
  - exact (proj1 (verdict_monotone 1 2 96 95 Hd Hm)).
  - exact (proj1 (proj2 (verdict_monotone 1 2 96 95 Hd Hm))).
Defined.

(** The ground floor when every floor has the frame [pi_example]. *)
Lemma dashboard_agrees_with_compare_floor_witness :
  same_frame_everywhere pi_example Ground = Some pi_example
  ∧ ∃ v, ValidatePiVsAcrylic.compare_floor (floor_key Ground) pi_example
         = Ok (Some v)
         ∧ ValidationDashboard.match_percentage
             (same_frame_everywhere pi_example) Ground
           = Ok (ValidatePiVsAcrylic.bssid_match v)
         ∧ (PiSelection.pi_slu pi_example ≠ [] →
            ValidationDashboard.signal_diff
              (same_frame_everywhere pi_example) Ground
            = ValidatePiVsAcrylic.signal_diff v)
         ∧ (PiSelection.pi_slu pi_example = [] →
            ValidationDashboard.signal_diff
              (same_frame_everywhere pi_example) Ground = Num 0
            ∧ ValidatePiVsAcrylic.signal_diff v = NaN).
Proof.
  assert (same_frame_everywhere pi_example Ground = Some pi_example) as H
    by reflexivity.
  split; [exact H|].
  exact (dashboard_agrees_with_compare_floor
           (same_frame_everywhere pi_example) Ground pi_example H).
Defined.

(** The three floors when every floor has the frame [pi_example]. *)
Lemma dashboard_excellent_implies_validation_excellent_witness :
  (∀ f, ∃ pi_data, same_frame_everywhere pi_example f = Some pi_data
                   ∧ PiSelection.pi_slu pi_data ≠ [])
  ∧ ∃ d results o,
      ValidationDashboard.create_validation_dashboard
        (same_frame_everywhere pi_example) = Ok d
      ∧ ValidateAllFloors.validate_all_floors
          (same_frame_everywhere pi_example) = Ok (results, Some o)
      ∧ ValidationDashboard.signal_diffs d
        = ValidatePiVsAcrylic.signal_diff ∘ snd <$> results
      ∧ ValidationDashboard.detection d
        = ValidatePiVsAcrylic.bssid_match ∘ snd <$> results
      ∧ ValidationDashboard.avg_signal_diff d
        = ValidateAllFloors.avg_signal_diff o
      ∧ ValidationDashboard.avg_detection d
        = ValidateAllFloors.avg_bssid_match o
      ∧ (ValidationDashboard.result_excellent d = true →
         ValidateAllFloors.excellent o = true).
Proof.
  assert (∀ f, ∃ pi_data, same_frame_everywhere pi_example f = Some pi_data
                          ∧ PiSelection.pi_slu pi_data ≠ []) as H.
  { intros f. exists pi_example. split; [reflexivity|].
    vm_compute. discriminate. }
  split; [exact H|].
  exact (dashboard_excellent_implies_validation_excellent
           (same_frame_everywhere pi_example) H).
Defined.

End MoreWitnesses.
